(** * await-vercel-deployment: the status poller, the OIDC credential
    lifecycle and the wait loop of [src/await-vercel-deployment/src/index.ts]
    (the first of the two versions in that file, lines 1-385, which refreshes
    the OIDC token inside the wait loop). *)

From Stdlib Require Import ZArith QArith Ascii String List Bool Lia.
From Stdlib Require Import Numbers.DecimalString.
Import ListNotations.

Open Scope string_scope.
Open Scope Z_scope.
Set Warnings "-register-all".

(** ** Strings *)

(** The newline of the template literals ["...\n${errorText}"]. *)
Definition nl : string := String (Ascii.ascii_of_nat 10) EmptyString.

(** [`${n}`] for the integer HTTP status codes. *)
Definition Z_to_string (n : Z) : string :=
  NilEmpty.string_of_int (Z.to_int n).

(** JavaScript truthiness of a [string | null]: [null] and [""] are falsy. *)
Definition truthy_str (s : option string) : bool :=
  match s with
  | None => false
  | Some EmptyString => false
  | Some _ => true
  end.

(** [xs.includes(s)] on an array of strings. *)
Definition includes (xs : list string) (s : string) : bool :=
  existsb (String.eqb s) xs.

(** ** Data model (lines 8-31) *)

(** [DeploymentStatusResponse]; the status is kept as the string the server
    sent, since the [as DeploymentStatusResponse] cast does not check it. *)
Record DeploymentStatusResponse := mkDeploymentStatusResponse {
  deploymentId : string;
  status : string;
  deploymentURL : option string
}.

Inductive PollResult :=
| PSuccess (data : DeploymentStatusResponse)
| PContinue (reason : string)
| PFatal (error : string).

Definition IN_PROGRESS_STATUSES : list string := ["BUILDING"; "INITIALIZING"; "QUEUED"].
Definition FAILED_STATUSES : list string := ["ERROR"; "CANCELED"].

(** An HTTP response of the status service as [fetch] delivers it:
    [res_text] is what [response.text()] yields, [res_json] what
    [response.json()] yields ([inl msg]: it rejects with [msg]). *)
Record Response := mkResponse {
  res_status : Z;
  res_statusText : string;
  res_text : string;
  res_json : string + DeploymentStatusResponse
}.

(** The outcome of the status request: [fetch] (or reading the body)
    rejected with a message, or a response was received. *)
Inductive FetchOutcome :=
| FetchFailed (message : string)
| Fetched (response : Response).

(** [response.ok]. *)
Definition ok (s : Z) : bool := (200 <=? s)%Z && (s <? 300)%Z.

(** ** The status poller: [pollDeploymentStatus] (lines 163-286)

    Everything after [await fetch(...)]; a rejection anywhere in the [try]
    block lands in the [catch] and becomes a [continue]. *)
Definition pollDeploymentStatus (fetched : FetchOutcome) : PollResult :=
  match fetched with
  | FetchFailed m => PContinue ("Error checking deployment status: " ++ m)
  | Fetched response =>
    let s := res_status response in
    let st := res_statusText response in
    let errorText := res_text response in
    if (s =? 400)%Z then
      PFatal ("Bad request: " ++ Z_to_string s ++ " " ++ st ++ nl ++ errorText)
    else if (s =? 403)%Z then
      PFatal ("Authorization failed: " ++ Z_to_string s ++ " " ++ st ++ nl ++ errorText)
    else if (s =? 409)%Z then
      PFatal ("Conflict when fetching deployment status: " ++ Z_to_string s ++ " "
              ++ st ++ nl ++ errorText)
    else if (s =? 404)%Z then
      PContinue "Deployment not found yet, waiting for it to be created"
    else if (500 <=? s)%Z && (s <? 600)%Z then
      PFatal ("Server error: " ++ Z_to_string s ++ " " ++ st ++ nl ++ errorText)
    else if negb (ok s) then
      PContinue ("API request failed: " ++ Z_to_string s ++ " " ++ st ++ nl ++ errorText)
    else
      match res_json response with
      | inl m => PContinue ("Error checking deployment status: " ++ m)
      | inr result =>
        if String.eqb (status result) "READY" then
          if negb (truthy_str (deploymentURL result)) then
            PFatal "Deployment is ready but no URL was provided"
          else PSuccess result
        else if includes FAILED_STATUSES (status result) then
          PFatal ("Deployment failed with status: " ++ status result)
        else if includes IN_PROGRESS_STATUSES (status result) then
          PContinue ("Deployment status: " ++ status result)
        else
          PContinue ("Unknown deployment status: " ++ status result)
      end
  end.

(** ** Token expiry decoding: [getTokenExpiry] (lines 344-372)

    [token.split(".")], then [Buffer.from(parts[1], "base64url")],
    [.toString("utf8")] and [JSON.parse]. Strings handled by JavaScript are
    lists of UTF-16 code units ([list Z]); JSON numbers are kept as the exact
    rational their literal denotes (no IEEE-754 rounding). *)

(** [s.split(".")]. *)
Fixpoint split_dot (s : string) : list string :=
  match s with
  | EmptyString => [EmptyString]
  | String c r =>
    let rest := split_dot r in
    if Ascii.eqb c "."%char then EmptyString :: rest
    else match rest with
         | h :: t => String c h :: t
         | [] => [String c EmptyString]
         end
  end.

Definition codes (s : string) : list Z :=
  map (fun c => Z.of_nat (Ascii.nat_of_ascii c)) (list_ascii_of_string s).

(** Node's [unbase64] table, shared by "base64" and "base64url": both
    ['+'] and ['-'] are 62, both ['/'] and ['_'] are 63. *)
Definition unbase64 (c : Z) : option Z :=
  if (65 <=? c)%Z && (c <=? 90)%Z then Some (c - 65)%Z
  else if (97 <=? c)%Z && (c <=? 122)%Z then Some (c - 71)%Z
  else if (48 <=? c)%Z && (c <=? 57)%Z then Some (c + 4)%Z
  else if (c =? 43)%Z || (c =? 45)%Z then Some 62%Z
  else if (c =? 47)%Z || (c =? 95)%Z then Some 63%Z
  else None.

(** The bytes written once [pending] sextets of a group have been read:
    the second, third and fourth sextet each complete one byte. *)
Definition b64_bytes (pending : list Z) : list Z :=
  match pending with
  | [a; b] => [Z.lor (Z.shiftl a 2) (Z.shiftr b 4)]
  | [a; b; c] => [Z.lor (Z.shiftl a 2) (Z.shiftr b 4);
                  Z.lor (Z.shiftl (Z.land b 15) 4) (Z.shiftr c 2)]
  | [a; b; c; d] => [Z.lor (Z.shiftl a 2) (Z.shiftr b 4);
                     Z.lor (Z.shiftl (Z.land b 15) 4) (Z.shiftr c 2);
                     Z.lor (Z.shiftl (Z.land c 3) 6) d]
  | _ => []
  end.

(** Node's base64 decoder: characters outside the alphabet are skipped and
    ['='] ends the input. *)
Fixpoint b64_go (cs : list Z) (pending : list Z) : list Z :=
  match cs with
  | [] => b64_bytes pending
  | c :: r =>
    match unbase64 c with
    | Some v =>
      let p := (pending ++ [v])%list in
      if (length p =? 4)%nat then (b64_bytes p ++ b64_go r [])%list else b64_go r p
    | None => if (c =? 61)%Z then b64_bytes pending else b64_go r pending
    end
  end.

Definition base64url_decode (s : string) : list Z := b64_go (codes s) [].

(** One UTF-8 sequence after its lead byte, WHATWG style: [need] more
    continuation bytes in [lower..upper] (then [0x80..0xBF]). [None]: the
    sequence is broken and the offending byte is not consumed. *)
Fixpoint utf8_cont (need : nat) (cp lower upper : Z) (bs : list Z)
  : option Z * list Z :=
  match need with
  | O => (Some cp, bs)
  | S n =>
    match bs with
    | b :: r =>
      if (lower <=? b)%Z && (b <=? upper)%Z
      then utf8_cont n (Z.lor (Z.shiftl cp 6) (Z.land b 63)) 128 191 r
      else (None, bs)
    | [] => (None, [])
    end
  end.

Definition REPLACEMENT : Z := 65533.

(** [buffer.toString("utf8")] as code points, with U+FFFD for each
    maximal ill-formed subsequence. *)
Fixpoint utf8_decode (fuel : nat) (bs : list Z) : list Z :=
  match fuel with
  | O => []
  | S f =>
    match bs with
    | [] => []
    | b :: r =>
      let seq need cp lo hi :=
        match utf8_cont need cp lo hi r with
        | (Some c, r') => c :: utf8_decode f r'
        | (None, r') => REPLACEMENT :: utf8_decode f r'
        end in
      if (b <? 128)%Z then b :: utf8_decode f r
      else if (194 <=? b)%Z && (b <=? 223)%Z then seq 1%nat (Z.land b 31) 128 191
      else if (224 <=? b)%Z && (b <=? 239)%Z then
        seq 2%nat (Z.land b 15) (if (b =? 224)%Z then 160 else 128)
            (if (b =? 237)%Z then 159 else 191)
      else if (240 <=? b)%Z && (b <=? 244)%Z then
        seq 3%nat (Z.land b 7) (if (b =? 240)%Z then 144 else 128)
            (if (b =? 244)%Z then 143 else 191)
      else REPLACEMENT :: utf8_decode f r
    end
  end.

(** Code points to the UTF-16 code units of a JavaScript string. *)
Definition utf16_units (cps : list Z) : list Z :=
  flat_map (fun c => if (c <? 65536)%Z then [c]
                     else [55296 + Z.shiftr (c - 65536) 10;
                           56320 + Z.land (c - 65536) 1023]%Z) cps.

Definition bytes_to_js_string (bs : list Z) : list Z :=
  utf16_units (utf8_decode (S (length bs)) bs).

(** ** Numbers: IEEE 754 binary64

    A JavaScript number is a finite binary64 value, an infinity or NaN. The
    sign of a zero is not kept: no code modelled here tells [-0] from [0]
    (both are falsy, of [typeof] "number" and [<= 0]). *)
Inductive double :=
| DFinite (q : Q)
| DInfinity (negative : bool)
| DNaN.

(** [floor (log2 (n / d))] for [n, d > 0]. *)
Definition log2_floor (n d : Z) : Z :=
  let t := Z.log2 n - Z.log2 d in
  if 0 <=? t then (if d * 2 ^ t <=? n then t else t - 1)
  else (if d <=? n * 2 ^ (- t) then t else t - 1).

(** [n / d] rounded to the nearest integer, ties to even ([0 <= n], [0 < d]). *)
Definition round_half_even (n d : Z) : Z :=
  let q := n / d in
  let r := n mod d in
  if 2 * r <? d then q
  else if d <? 2 * r then q + 1
  else if Z.even q then q else q + 1.

(** The binary64 value nearest to [n / d] ([n, d > 0]): a 53-bit significand
    scaled by [2^e] with [e >= -1074] (subnormals included), ties to even,
    and an infinity when the rounded magnitude reaches [2^1024]. *)
Definition round_pos (n d : Z) : double :=
  let e := Z.max (log2_floor n d - 52) (-1074) in
  if 0 <=? e then
    let m := round_half_even n (d * 2 ^ e) in
    if 2 ^ 1024 <=? m * 2 ^ e then DInfinity false else DFinite (inject_Z (m * 2 ^ e))
  else DFinite (Qred (Qmake (round_half_even (n * 2 ^ (- e)) d) (Z.to_pos (2 ^ (- e))))).

Definition dneg (x : double) : double :=
  match x with
  | DFinite q => DFinite (- q)
  | DInfinity b => DInfinity (negb b)
  | DNaN => DNaN
  end.

(** The number value of an exact rational: round to nearest, ties to even. *)
Definition round_binary64 (q : Q) : double :=
  match Qnum q with
  | Z0 => DFinite 0
  | Zpos n => round_pos (Zpos n) (Zpos (Qden q))
  | Zneg n => dneg (round_pos (Zpos n) (Zpos (Qden q)))
  end.

(** [x * y]: the exact product, rounded. *)
Definition dmul (x y : double) : double :=
  match x, y with
  | DNaN, _ | _, DNaN => DNaN
  | DFinite a, DFinite b => round_binary64 (a * b)
  | DInfinity s, DFinite b | DFinite b, DInfinity s =>
    if Qeq_bool b 0 then DNaN else DInfinity (xorb s (negb (Qle_bool 0 b)))
  | DInfinity s, DInfinity t => DInfinity (xorb s t)
  end.

(** [x <= 0] *)
Definition dle0 (x : double) : bool :=
  match x with
  | DFinite q => Qle_bool q 0
  | DInfinity negative => negative
  | DNaN => false
  end.

Definition disNaN (x : double) : bool :=
  match x with DNaN => true | _ => false end.

(** [JSON.parse] over the code units of a JavaScript string. *)
Inductive json :=
| JNull
| JBool (b : bool)
| JNum (d : double)
| JStr (s : list Z)
| JArr (items : list json)
| JObj (fields : list (list Z * json)).

Notation "'let?' p ':=' a 'in' b" :=
  (match a with Some p => b | None => None end)
  (at level 200, p pattern, a at level 100, b at level 200).

Definition is_ws (c : Z) : bool := (c =? 32) || (c =? 9) || (c =? 10) || (c =? 13).

Fixpoint skip_ws (cs : list Z) : list Z :=
  match cs with
  | c :: r => if is_ws c then skip_ws r else cs
  | [] => []
  end.

Definition hex_digit (c : Z) : option Z :=
  if (48 <=? c) && (c <=? 57) then Some (c - 48)
  else if (65 <=? c) && (c <=? 70) then Some (c - 55)
  else if (97 <=? c) && (c <=? 102) then Some (c - 87)
  else None.

Definition hex4 (a b c d : Z) : option Z :=
  let? x1 := hex_digit a in let? x2 := hex_digit b in
  let? x3 := hex_digit c in let? x4 := hex_digit d in
  Some (((x1 * 16 + x2) * 16 + x3) * 16 + x4).

(** The single-character escapes: quote, backslash, slash, b, f, n, r, t. *)
Definition escape (c : Z) : option Z :=
  if (c =? 34) || (c =? 92) || (c =? 47) then Some c
  else if c =? 98 then Some 8
  else if c =? 102 then Some 12
  else if c =? 110 then Some 10
  else if c =? 114 then Some 13
  else if c =? 116 then Some 9
  else None.

(** The characters of a string literal after its opening quote, up to and
    including the closing quote. *)
Fixpoint parse_chars (cs : list Z) : option (list Z * list Z) :=
  match cs with
  | [] => None
  | 34 :: r => Some ([], r)
  | 92 :: r =>
    match r with
    | 117 :: a :: b :: c :: d :: r' =>
      let? u := hex4 a b c d in
      let? (s, r'') := parse_chars r' in Some (u :: s, r'')
    | e :: r' =>
      let? u := escape e in
      let? (s, r'') := parse_chars r' in Some (u :: s, r'')
    | [] => None
    end
  | c :: r =>
    if c <? 32 then None
    else let? (s, r') := parse_chars r in Some (c :: s, r')
  end.

Definition is_digit (c : Z) : bool := (48 <=? c) && (c <=? 57).

Fixpoint take_digits (cs : list Z) : list Z * list Z :=
  match cs with
  | c :: r =>
    if is_digit c then let (ds, r') := take_digits r in (c :: ds, r') else ([], cs)
  | [] => ([], [])
  end.

Definition digits_value (ds : list Z) : Z :=
  fold_left (fun acc d => acc * 10 + (d - 48)) ds 0.

(** The exact value [m * 10^k]. *)
Definition decimal_Q (m k : Z) : Q :=
  if 0 <=? k then inject_Z (m * 10 ^ k) else Qmake m (Z.to_pos (10 ^ (- k))).

(** A JSON number: optional minus, integer part (a single 0 or a nonzero
    digit and more digits), optional fraction, optional exponent; its value
    is the exact decimal rounded to binary64. *)
Definition parse_number (cs : list Z) : option (double * list Z) :=
  let '(sign, cs1) := match cs with 45 :: r => (-1, r) | _ => (1, cs) end in
  let? (ip, r1) :=
    match cs1 with
    | 48 :: r => Some ([48], r)
    | c :: _ => if (49 <=? c) && (c <=? 57) then Some (take_digits cs1) else None
    | [] => None
    end in
  let? (fp, r2) :=
    match r1 with
    | 46 :: r =>
      let (ds, r') := take_digits r in
      match ds with [] => None | _ => Some (ds, r') end
    | _ => Some ([], r1)
    end in
  let? (e, r3) :=
    match r2 with
    | c :: r =>
      if (c =? 101) || (c =? 69) then
        let '(esign, r') := match r with
                            | 43 :: r' => (1, r') | 45 :: r' => (-1, r') | _ => (1, r) end in
        let (ds, r'') := take_digits r' in
        match ds with [] => None | _ => Some (esign * digits_value ds, r'') end
      else Some (0, r2)
    | [] => Some (0, [])
    end in
  Some (round_binary64 (decimal_Q (sign * digits_value (ip ++ fp)%list) (e - Z.of_nat (length fp))),
        r3).

Fixpoint parse_value (fuel : nat) (cs : list Z) {struct fuel} : option (json * list Z) :=
  match fuel with
  | O => None
  | S f =>
    match skip_ws cs with
    | 123 :: r =>
      match skip_ws r with
      | 125 :: r' => Some (JObj [], r')
      | _ => parse_members f r []
      end
    | 91 :: r =>
      match skip_ws r with
      | 93 :: r' => Some (JArr [], r')
      | _ => parse_elements f r []
      end
    | 34 :: r => let? (s, r') := parse_chars r in Some (JStr s, r')
    | 116 :: 114 :: 117 :: 101 :: r => Some (JBool true, r)
    | 102 :: 97 :: 108 :: 115 :: 101 :: r => Some (JBool false, r)
    | 110 :: 117 :: 108 :: 108 :: r => Some (JNull, r)
    | cs' => let? (d, r) := parse_number cs' in Some (JNum d, r)
    end
  end
with parse_members (fuel : nat) (cs : list Z) (acc : list (list Z * json))
  {struct fuel} : option (json * list Z) :=
  match fuel with
  | O => None
  | S f =>
    match skip_ws cs with
    | 34 :: r =>
      let? (k, r1) := parse_chars r in
      match skip_ws r1 with
      | 58 :: r2 =>
        let? (v, r3) := parse_value f r2 in
        match skip_ws r3 with
        | 44 :: r4 => parse_members f r4 (acc ++ [(k, v)])%list
        | 125 :: r4 => Some (JObj (acc ++ [(k, v)])%list, r4)
        | _ => None
        end
      | _ => None
      end
    | _ => None
    end
  end
with parse_elements (fuel : nat) (cs : list Z) (acc : list json)
  {struct fuel} : option (json * list Z) :=
  match fuel with
  | O => None
  | S f =>
    let? (v, r1) := parse_value f cs in
    match skip_ws r1 with
    | 44 :: r2 => parse_elements f r2 (acc ++ [v])%list
    | 93 :: r2 => Some (JArr (acc ++ [v])%list, r2)
    | _ => None
    end
  end.

(** [JSON.parse(text)]; [None]: it throws a [SyntaxError]. *)
Definition json_parse (text : list Z) : option json :=
  match parse_value (S (length text)) text with
  | Some (v, r) => match skip_ws r with [] => Some v | _ => None end
  | None => None
  end.

(** Test inputs: the code units of [s] with every ['] read as a double quote. *)
Definition jcodes (s : string) : list Z :=
  map (fun c => if c =? 39 then 34 else c) (codes s).

Example json_parse_obj :
  json_parse (jcodes "{'exp': 17, 'a':[true,null, -1.5e1]}") =
  Some (JObj [(codes "exp", JNum (DFinite 17));
              (codes "a", JArr [JBool true; JNull; JNum (DFinite (-15))])]).
Proof. reflexivity. Qed.

(** A JavaScript value read from a parsed payload. *)
Inductive js_value :=
| Undefined
| Val (j : json).

(** The last binding of a key, as [JSON.parse] keeps the last duplicate. *)
Fixpoint find_last (k : list Z) (fs : list (list Z * json)) : option json :=
  match fs with
  | [] => None
  | (k', v) :: r =>
    match find_last k r with
    | Some w => Some w
    | None => if list_eq_dec Z.eq_dec k k' then Some v else None
    end
  end.

(** [payload.exp]; [None]: a [TypeError], thrown for [null]. *)
Definition get_prop (payload : json) (k : list Z) : option js_value :=
  match payload with
  | JNull => None
  | JObj fs => Some (match find_last k fs with Some v => Val v | None => Undefined end)
  | _ => Some Undefined
  end.

Definition truthy (v : js_value) : bool :=
  match v with
  | Undefined => false
  | Val JNull => false
  | Val (JBool b) => b
  | Val (JNum (DFinite q)) => negb (Qeq_bool q 0)
  | Val (JNum (DInfinity _)) => true
  | Val (JNum DNaN) => false
  | Val (JStr s) => match s with [] => false | _ => true end
  | Val (JArr _) | Val (JObj _) => true
  end.

Definition is_number (v : js_value) : bool :=
  match v with Val (JNum _) => true | _ => false end.

(** Why [getTokenExpiry] throws ("Failed to decode token expiry: ..."). *)
Inductive DecodeError :=
| InvalidJwtFormat          (* "Invalid JWT format" *)
| PayloadSyntaxError        (* JSON.parse threw *)
| PayloadTypeError          (* payload.exp on null threw *)
| NoValidExp.               (* "Token does not contain valid exp claim" *)

(** The decoded payload of a token segment:
    [JSON.parse(Buffer.from(seg, "base64url").toString("utf8"))]. *)
Definition decode_segment (seg : string) : option json :=
  json_parse (bytes_to_js_string (base64url_decode seg)).

Definition getTokenExpiry (token : string) : DecodeError + double :=
  let parts := split_dot token in
  if negb (length parts =? 3)%nat then inl InvalidJwtFormat
  else
    match decode_segment (nth 1 parts EmptyString) with
    | None => inl PayloadSyntaxError
    | Some payload =>
      match get_prop payload (codes "exp") with
      | None => inl PayloadTypeError
      | Some e =>
        if negb (truthy e) || negb (is_number e) then inl NoValidExp
        else match e with
             | Val (JNum d) => inr (dmul d (DFinite 1000))
             | _ => inl NoValidExp
             end
      end
    end.

(** base64url of [{"exp":1700000000}]. *)
Example getTokenExpiry_sample :
  getTokenExpiry "h.eyJleHAiOjE3MDAwMDAwMDB9.s" = inr (DFinite 1700000000000).
Proof. vm_compute. reflexivity. Qed.

(** Number literals read as binary64: [0.1] is its nearest double, [1e-400]
    underflows to 0, [1e400] overflows to [Infinity], [2^53 + 1] rounds to
    even, [5e-324] is the least subnormal and [1.7976931348623157e308] the
    largest finite number. *)
Example json_parse_numbers :
  json_parse (jcodes "[0.1, 1e-400, 1e400, 9007199254740993, 5e-324, 1.7976931348623157e308]") =
  Some (JArr [JNum (DFinite (3602879701896397 # 36028797018963968)); JNum (DFinite 0);
              JNum (DInfinity false); JNum (DFinite 9007199254740992);
              JNum (DFinite (1 # 2 ^ 1074)); JNum (DFinite (inject_Z ((2 ^ 53 - 1) * 2 ^ 971)))]).
Proof. vm_compute. reflexivity. Qed.

(** [{"exp":1e-400}] has [exp] 0 and is rejected; [{"exp":1.005}] gives
    [1004.9999999999999], not 1005; [{"exp":1e400}] gives [Infinity]. *)
Example getTokenExpiry_rounding :
  getTokenExpiry "h.eyJleHAiOjFlLTQwMH0.s" = inl NoValidExp /\
  getTokenExpiry "h.eyJleHAiOjEuMDA1fQ.s" = inr (DFinite (8840073487319039 # 8796093022208)) /\
  getTokenExpiry "h.eyJleHAiOjFlNDAwfQ.s" = inr (DInfinity false).
Proof. vm_compute. repeat split. Qed.

(** ** The credential provider (lines 288-379) *)

Record TokenWithExpiry := mkTokenWithExpiry {
  token : string;
  expiresAt : Q   (* Unix timestamp in milliseconds, a finite number *)
}.

Definition REFRESH_BUFFER_MS : Z := 30 * 1000.

(** [shouldRefreshToken], with [now] the value of [Date.now()]. *)
Definition shouldRefreshToken (tokenWithExpiry : TokenWithExpiry) (now : Z) : bool :=
  let timeUntilExpiry := (expiresAt tokenWithExpiry - inject_Z now)%Q in
  Qle_bool timeUntilExpiry (inject_Z REFRESH_BUFFER_MS).

(** The request [getOIDCToken] sends to the identity broker. *)
Record BrokerRequest := mkBrokerRequest {
  broker_url : string;
  broker_bearer : string
}.

(** Its outcome: [fetch] rejected, or a response with [response.ok]'s
    status and what [(await response.json()).value] yields ([inl msg]:
    reading or parsing the body threw [msg]). *)
Inductive BrokerOutcome :=
| BrokerFailed (message : string)
| BrokerResponse (status : Z) (statusText : string) (value : string + option string).

(** The body of the status request (lines 172-184). *)
Record StatusRequest := mkStatusRequest {
  req_url : string;
  req_authorization : string;
  req_sha : string;
  req_jobName : string;
  req_vercelProjectName : option string;
  req_vercelProjectId : option string
}.

(** The process environment and the two remote services; the [i]-th request
    to a service returns after the given number of milliseconds. *)
Record Env := mkEnv {
  ACTIONS_ID_TOKEN_REQUEST_URL : option string;
  ACTIONS_ID_TOKEN_REQUEST_TOKEN : option string;
  broker : nat -> BrokerRequest -> Z * BrokerOutcome;
  service : nat -> StatusRequest -> Z * FetchOutcome
}.

(** Why [createTokenWithExpiry] throws. *)
Inductive AcquireError :=
| OidcNotConfigured                          (* "Unable to get OIDC token. ..." *)
| OidcRequestFailed (message : string)       (* fetch or response.json() threw *)
| OidcHttpError (status : Z) (statusText : string)
| OidcNoValue                                (* "No value returned" *)
| TokenDecodeError (e : DecodeError)
| InvalidTimeValue.                          (* RangeError of toISOString() *)

Inductive PollEvent :=
| ERefresh (t : TokenWithExpiry)
| EPoll (request : StatusRequest) (result : PollResult)
| ESleep.

(** The state threaded through the wait loop: the clock ([Date.now()]), the
    [currentToken] binding, the number of requests made to each service so
    far and the trace of what happened. *)
Record St := mkSt {
  now : Z;
  currentToken : TokenWithExpiry;
  polls : nat;
  acquires : nat;
  trace : list PollEvent
}.

Definition advance (ms : Z) (s : St) : St :=
  mkSt (now s + ms) (currentToken s) (polls s) (acquires s) (trace s).
Definition set_token (t : TokenWithExpiry) (s : St) : St :=
  mkSt (now s) t (polls s) (acquires s) (trace s).
Definition count_poll (s : St) : St :=
  mkSt (now s) (currentToken s) (S (polls s)) (acquires s) (trace s).
Definition count_acquire (s : St) : St :=
  mkSt (now s) (currentToken s) (polls s) (S (acquires s)) (trace s).
Definition log (e : PollEvent) (s : St) : St :=
  mkSt (now s) (currentToken s) (polls s) (acquires s) (trace s ++ [e])%list.

Definition DEFAULT_ENDFORM_URL : string := "https://endform.dev".

(** [`${tokenRequestUrl}&audience=${encodeURIComponent(DEFAULT_ENDFORM_URL)}`] *)
Definition oidc_url (tokenRequestUrl : string) : string :=
  tokenRequestUrl ++ "&audience=https%3A%2F%2Fendform.dev".

(** The largest time value of a [Date], in milliseconds. *)
Definition MAX_TIME_MS : Z := 8640000000000000.

(** [new Date(expiresAt).toISOString()] (line 292) throws a [RangeError]
    unless [expiresAt] is finite with [|expiresAt| <= 8.64e15] (TimeClip);
    [Some q]: it does not throw. *)
Definition valid_time (x : double) : option Q :=
  match x with
  | DFinite q =>
    if Qle_bool (- inject_Z MAX_TIME_MS) q && Qle_bool q (inject_Z MAX_TIME_MS)
    then Some q else None
  | _ => None
  end.

(** [createTokenWithExpiry]: [getOIDCToken] (lines 308-342), then
    [getTokenExpiry], then the [Date] of line 292. *)
Definition createTokenWithExpiry (env : Env) (s : St) : (AcquireError + TokenWithExpiry) * St :=
  let url := ACTIONS_ID_TOKEN_REQUEST_URL env in
  let tok := ACTIONS_ID_TOKEN_REQUEST_TOKEN env in
  if negb (truthy_str url) || negb (truthy_str tok) then (inl OidcNotConfigured, s)
  else
    let req := mkBrokerRequest (oidc_url (match url with Some u => u | None => EmptyString end))
                               (match tok with Some t => t | None => EmptyString end) in
    let (latency, out) := broker env (acquires s) req in
    let s' := advance latency (count_acquire s) in
    let r :=
      match out with
      | BrokerFailed m => inl (OidcRequestFailed m)
      | BrokerResponse st stt body =>
        if negb (ok st) then inl (OidcHttpError st stt)
        else match body with
             | inl m => inl (OidcRequestFailed m)
             | inr value =>
               if negb (truthy_str value) then inl OidcNoValue
               else
                 let v := match value with Some v => v | None => EmptyString end in
                 match getTokenExpiry v with
                 | inl e => inl (TokenDecodeError e)
                 | inr expiresAt =>
                   match valid_time expiresAt with
                   | Some t => inr (mkTokenWithExpiry v t)
                   | None => inl InvalidTimeValue
                   end
                 end
             end
      end in
    (r, s').

(** [getValidToken] (lines 297-306). *)
Definition getValidToken (env : Env) (s : St) : (AcquireError + TokenWithExpiry) * St :=
  if shouldRefreshToken (currentToken s) (now s) then
    match createTokenWithExpiry env s with
    | (inr t, s') => (inr t, log (ERefresh t) s')
    | (inl e, s') => (inl e, s')
    end
  else (inr (currentToken s), s).

(** ** The wait loop: [waitForVercelDeployment] (lines 116-161)

    Time passes only while a request is in flight and during [sleep]; the
    loop runs for at most [fuel] iterations ([WOutOfFuel] afterwards). *)

Definition POLL_INTERVAL_MS : Z := 5000.

(** The arguments of the wait. [timeoutSeconds] is an integer, as
    [Number.parseInt] yields it; [timeoutSeconds * 1000] and
    [Date.now() - startTime] are then computed exactly in binary64 as long
    as they stay below [2^53] ms, which is how they are computed here. *)
Record WaitArgs := mkWaitArgs {
  sha : string;
  jobName : string;
  projectName : option string;
  projectId : option string;
  timeoutSeconds : Z;
  endformUrl : string
}.

Definition apiUrl (a : WaitArgs) : string :=
  endformUrl a ++ "/api/integrations/v1/actions/await-vercel-deployment".

Definition status_request (a : WaitArgs) (tok : string) : StatusRequest :=
  mkStatusRequest (apiUrl a) ("Bearer " ++ tok) (sha a) (jobName a)
                  (projectName a) (projectId a).

(** How [waitForVercelDeployment] ends: it returns, or one of its three
    [throw] sites fires (the fatal poll result, the timeout, or an error
    thrown by [getValidToken]). *)
Inductive WaitOutcome :=
| WReady (data : DeploymentStatusResponse)
| WFatal (error : string)
| WTimeout (timeoutSeconds : Z)
| WRefreshFailed (e : AcquireError)
| WOutOfFuel.

Inductive Step :=
| Stop (o : WaitOutcome) (s : St)
| Loop (s : St).

(** One iteration of [while (true) { ... }]. *)
Definition loop_body (env : Env) (a : WaitArgs) (startTime : Z) (s : St) : Step :=
  let timeoutMs := timeoutSeconds a * 1000 in
  if now s - startTime >? timeoutMs then Stop (WTimeout (timeoutSeconds a)) s
  else
    match getValidToken env s with
    | (inl e, s1) => Stop (WRefreshFailed e) s1
    | (inr t, s1) =>
      let s2 := set_token t s1 in
      let req := status_request a (token t) in
      let (latency, out) := service env (polls s2) req in
      let result := pollDeploymentStatus out in
      let s3 := log (EPoll req result) (advance latency (count_poll s2)) in
      match result with
      | PSuccess data => Stop (WReady data) s3
      | PFatal error => Stop (WFatal error) s3
      | PContinue _ => Loop (log ESleep (advance POLL_INTERVAL_MS s3))
      end
    end.

Fixpoint wait_loop (fuel : nat) (env : Env) (a : WaitArgs) (startTime : Z) (s : St)
  : WaitOutcome * St :=
  match fuel with
  | O => (WOutOfFuel, s)
  | S f =>
    match loop_body env a startTime s with
    | Stop o s' => (o, s')
    | Loop s' => wait_loop f env a startTime s'
    end
  end.

(** [waitForVercelDeployment], entered at time [startTime]. *)
Definition waitForVercelDeployment (fuel : nat) (env : Env) (initialToken : TokenWithExpiry)
  (a : WaitArgs) (startTime : Z) : WaitOutcome * St :=
  wait_loop fuel env a startTime (mkSt startTime initialToken 0 0 []).

(** Sample environment: the broker issues [tok], every status request is
    answered after [lat] ms by [resp i]. *)
Definition sample_env (tok : string) (lat : Z) (resp : nat -> FetchOutcome) : Env :=
  mkEnv (Some "https://broker?x=1") (Some "ambient")
        (fun _ _ => (100, BrokerResponse 200 "OK" (inr (Some tok))))
        (fun i _ => (lat, resp i)).

Definition sample_args (ts : Z) : WaitArgs :=
  mkWaitArgs "abc123" "test" (Some "web") None ts "https://endform.dev".

Definition building_then_ready (i : nat) : FetchOutcome :=
  Fetched (mkResponse 200 "OK" EmptyString
    (inr (if (i <? 2)%nat then mkDeploymentStatusResponse "d1" "BUILDING" None
          else mkDeploymentStatusResponse "d1" "READY" (Some "https://example.vercel.app")))).

(** Scenario A of the spec, with the source's 5 s poll interval. *)
Example scenario_A :
  let '(o, s) := waitForVercelDeployment 10 (sample_env "h.eyJleHAiOjE3MDAwMDAwMDB9.s" 10 building_then_ready)
                   (mkTokenWithExpiry "t0" (10 ^ 15)) (sample_args 20) 0 in
  (o, polls s) = (WReady (mkDeploymentStatusResponse "d1" "READY" (Some "https://example.vercel.app")), 3%nat).
Proof. vm_compute. reflexivity. Qed.

(** ** The earlier revision in the same file (lines 386-724)

    The second copy of the action in [src/await-vercel-deployment/src/index.ts]
    requests one OIDC token up front and polls with it until the end; its
    poller has no [409] and no [5xx] case. *)
Module Revision2.

(** [pollDeploymentStatus] (lines 522-631). *)
Definition pollDeploymentStatus (fetched : FetchOutcome) : PollResult :=
  match fetched with
  | FetchFailed m => PContinue ("Error checking deployment status: " ++ m)
  | Fetched response =>
    let s := res_status response in
    let st := res_statusText response in
    let errorText := res_text response in
    if (s =? 400)%Z then
      PFatal ("Bad request: " ++ Z_to_string s ++ " " ++ st ++ nl ++ errorText)
    else if (s =? 403)%Z then
      PFatal ("Authorization failed: " ++ Z_to_string s ++ " " ++ st ++ nl ++ errorText)
    else if (s =? 404)%Z then
      PContinue "Deployment not found yet, waiting for it to be created"
    else if negb (ok s) then
      PContinue ("API request failed: " ++ Z_to_string s ++ " " ++ st ++ nl ++ errorText)
    else
      match res_json response with
      | inl m => PContinue ("Error checking deployment status: " ++ m)
      | inr result =>
        if String.eqb (status result) "READY" then
          if negb (truthy_str (deploymentURL result)) then
            PFatal "Deployment is ready but no URL was provided"
          else PSuccess result
        else if includes FAILED_STATUSES (status result) then
          PFatal ("Deployment failed with status: " ++ status result)
        else if includes IN_PROGRESS_STATUSES (status result) then
          PContinue ("Deployment status: " ++ status result)
        else
          PContinue ("Unknown deployment status: " ++ status result)
      end
  end.

(** The loop state: the clock, the number of status requests made and the
    trace; the token never changes. *)
Record St2 := mkSt2 {
  now2 : Z;
  polls2 : nat;
  trace2 : list PollEvent
}.

Inductive Step2 :=
| Stop2 (o : WaitOutcome) (s : St2)
| Loop2 (s : St2).

(** One iteration of [waitForVercelDeployment] (lines 633-680), polling
    with the fixed [token]. *)
Definition loop_body (env : Env) (a : WaitArgs) (token : string) (startTime : Z) (s : St2)
  : Step2 :=
  let timeoutMs := timeoutSeconds a * 1000 in
  if now2 s - startTime >? timeoutMs then Stop2 (WTimeout (timeoutSeconds a)) s
  else
    let req := status_request a token in
    let (latency, out) := service env (polls2 s) req in
    let result := pollDeploymentStatus out in
    let s3 := mkSt2 (now2 s + latency) (S (polls2 s)) (trace2 s ++ [EPoll req result])%list in
    match result with
    | PSuccess data => Stop2 (WReady data) s3
    | PFatal error => Stop2 (WFatal error) s3
    | PContinue _ =>
      Loop2 (mkSt2 (now2 s3 + POLL_INTERVAL_MS) (polls2 s3) (trace2 s3 ++ [ESleep])%list)
    end.

Fixpoint wait_loop (fuel : nat) (env : Env) (a : WaitArgs) (token : string) (startTime : Z)
  (s : St2) : WaitOutcome * St2 :=
  match fuel with
  | O => (WOutOfFuel, s)
  | S f =>
    match loop_body env a token startTime s with
    | Stop2 o s' => (o, s')
    | Loop2 s' => wait_loop f env a token startTime s'
    end
  end.

Definition waitForVercelDeployment (fuel : nat) (env : Env) (token : string) (a : WaitArgs)
  (startTime : Z) : WaitOutcome * St2 :=
  wait_loop fuel env a token startTime (mkSt2 startTime 0 []).

End Revision2.

(** ** [run] of the await action, up to the call of the wait (lines 33-103)

    Inputs are the values [core.getInput] returns (trimmed); strings are
    read as Latin-1 code units. *)
Module AwaitRun.

(** [Number.parseInt(s, 10)]: leading white space, an optional sign, then
    the longest run of decimal digits, whose value is rounded to binary64;
    [NaN] without digits. *)
Definition is_js_ws (c : Z) : bool :=
  ((9 <=? c) && (c <=? 13)) || (c =? 32) || (c =? 160).

Fixpoint skip_js_ws (cs : list Z) : list Z :=
  match cs with
  | c :: r => if is_js_ws c then skip_js_ws r else cs
  | [] => []
  end.

Definition parseInt10 (s : string) : double :=
  let cs := skip_js_ws (codes s) in
  let '(sign, cs1) := match cs with
                      | 45 :: r => (-1, r)
                      | 43 :: r => (1, r)
                      | _ => (1, cs)
                      end in
  match fst (take_digits cs1) with
  | [] => DNaN
  | ds => round_binary64 (inject_Z (sign * digits_value ds))
  end.

Definition DEFAULT_TIMEOUT_SECONDS : Z := 600.

(** The action inputs; [in_set_url_env_var = None]: the required input is
    not supplied and [core.getInput] throws. *)
Record Inputs := mkInputs {
  in_project_name : string;
  in_project_id : string;
  in_set_url_env_var : option string;
  in_timeout_seconds : string
}.

(** The process environment of [run]; [read_file p] is
    [readFileSync(p)] as bytes ([None]: it throws). *)
Record RunEnv := mkRunEnv {
  action_env : Env;
  ENDFORM_URL : option string;
  GITHUB_SHA : option string;
  GITHUB_EVENT_NAME : option string;
  GITHUB_EVENT_PATH : option string;
  GITHUB_JOB : option string;
  read_file : string -> option (list Z)
}.

(** The value [sha] holds: [GITHUB_SHA], or the pull request's head SHA
    taken from the event payload (whatever JSON value it is). *)
Inductive ShaValue :=
| ShaEnv (v : option string)
| ShaEvent (v : json).

Definition sha_truthy (v : ShaValue) : bool :=
  match v with ShaEnv s => truthy_str s | ShaEvent j => truthy (Val j) end.

(** [x?.k] on a value read from the payload. *)
Definition opt_prop (v : js_value) (k : list Z) : option js_value :=
  match v with
  | Undefined | Val JNull => Some Undefined
  | Val j => get_prop j k
  end.

(** [eventData.pull_request?.head?.sha]; [None]: a [TypeError]. *)
Definition head_sha (eventData : json) : option js_value :=
  let? pr := get_prop eventData (codes "pull_request") in
  let? h := opt_prop pr (codes "head") in
  opt_prop h (codes "sha").

(** Lines 58-78: for pull request events, the head SHA of the event
    payload replaces [GITHUB_SHA]; any exception keeps [GITHUB_SHA]. *)
Definition resolveSha (renv : RunEnv) : ShaValue :=
  let sha := ShaEnv (GITHUB_SHA renv) in
  match GITHUB_EVENT_NAME renv with
  | Some n =>
    if String.eqb n "pull_request" || String.eqb n "pull_request_target" then
      match GITHUB_EVENT_PATH renv with
      | Some p =>
        if truthy_str (Some p) then
          match read_file renv p with
          | None => sha
          | Some bytes =>
            match json_parse (bytes_to_js_string bytes) with
            | None => sha
            | Some eventData =>
              match head_sha eventData with
              | Some (Val j) => if truthy (Val j) then ShaEvent j else sha
              | _ => sha
              end
            end
          end
        else sha
      | None => sha
      end
    else sha
  | None => sha
  end.

(** Why [run] stops before waiting (the message it passes to
    [core.setFailed]). *)
Inductive RunError :=
| InputRequired (name : string)    (* "Input required and not supplied: ..." *)
| AcquireFailed (e : AcquireError)
| NoProject      (* "Either 'project-name' or 'project-id' input must be provided" *)
| BadTimeout     (* "'timeout-seconds' must be a positive number" *)
| NoSha          (* "GITHUB_SHA environment variable is not set" *)
| NoJob.         (* "GITHUB_JOB environment variable is not set" *)

(** The arguments [run] hands to [waitForVercelDeployment]. *)
Record Prepared := mkPrepared {
  p_token : TokenWithExpiry;
  p_sha : ShaValue;
  p_jobName : string;
  p_projectName : option string;
  p_projectId : option string;
  p_timeoutSeconds : double;
  p_endformUrl : string;
  p_setUrlEnvVar : string
}.

Definition or_null (s : string) : option string :=
  if String.eqb s EmptyString then None else Some s.

(** Lines 35-103, from state [s] (clock and request counters). *)
Definition run_prepare (renv : RunEnv) (inputs : Inputs) (s : St) : (RunError + Prepared) * St :=
  let projectName := in_project_name inputs in
  let projectId := in_project_id inputs in
  match in_set_url_env_var inputs with
  | None => (inl (InputRequired "set-url-env-var"), s)
  | Some setUrlEnvVar =>
    let timeoutSeconds :=
      parseInt10 (if String.eqb (in_timeout_seconds inputs) EmptyString
                  then "600" else in_timeout_seconds inputs) in
    let endformUrl :=
      match ENDFORM_URL renv with
      | Some u => if truthy_str (Some u) then u else DEFAULT_ENDFORM_URL
      | None => DEFAULT_ENDFORM_URL
      end in
    match createTokenWithExpiry (action_env renv) s with
    | (inl e, s1) => (inl (AcquireFailed e), s1)
    | (inr tokenWithExpiry, s1) =>
      if String.eqb projectName EmptyString && String.eqb projectId EmptyString then
        (inl NoProject, s1)
      else
        if disNaN timeoutSeconds || dle0 timeoutSeconds then (inl BadTimeout, s1)
        else
          let sha := resolveSha renv in
          if negb (sha_truthy sha) then (inl NoSha, s1)
          else
            match GITHUB_JOB renv with
            | Some j =>
              if truthy_str (Some j) then
                (inr (mkPrepared tokenWithExpiry sha j (or_null projectName)
                                 (or_null projectId) timeoutSeconds endformUrl setUrlEnvVar), s1)
              else (inl NoJob, s1)
            | None => (inl NoJob, s1)
            end
    end
  end.

End AwaitRun.

(** ** The register action (src/register-vercel-check/src/index.ts, lines 16-116)

    The first copy in that file (lines 1-14) only prints a greeting. *)
Module RegisterVercelCheck.

Record RegisterRequest := mkRegisterRequest {
  reg_url : string;
  reg_authorization : string;
  reg_sha : string
}.

(** [fetch] (or reading the error body) rejected, or a response. *)
Inductive RegisterOutcome :=
| RegFailed (message : string)
| RegResponse (status : Z) (statusText : string) (text : string).

Record RegEnv := mkRegEnv {
  ENDFORM_URL : option string;
  GITHUB_SHA : option string;
  ACTIONS_ID_TOKEN_REQUEST_URL : option string;
  ACTIONS_ID_TOKEN_REQUEST_TOKEN : option string;
  broker : BrokerRequest -> BrokerOutcome;
  api : RegisterRequest -> RegisterOutcome
}.

(** The requests the action sends, in order. *)
Inductive Request :=
| RBroker (r : BrokerRequest)
| RRegister (r : RegisterRequest).

Definition OIDC_PERMISSION_MESSAGE : string :=
  "Unable to get OIDC token. Please ensure the workflow has 'id-token: write' permission configured:"
  ++ nl ++ nl ++ "permissions:" ++ nl ++ "  id-token: write" ++ nl ++ "  contents: read" ++ nl.

(** [getOIDCToken] (lines 79-114); [inl msg]: it throws [msg]. *)
Definition getOIDCToken (env : RegEnv) : (string + string) * list Request :=
  let url := ACTIONS_ID_TOKEN_REQUEST_URL env in
  let tok := ACTIONS_ID_TOKEN_REQUEST_TOKEN env in
  if negb (truthy_str url) || negb (truthy_str tok) then (inl OIDC_PERMISSION_MESSAGE, [])
  else
    let req := mkBrokerRequest (oidc_url (match url with Some u => u | None => EmptyString end))
                               (match tok with Some t => t | None => EmptyString end) in
    let r :=
      match broker env req with
      | BrokerFailed m => inl m
      | BrokerResponse st stt body =>
        if negb (ok st) then inl ("Failed to get OIDC token: " ++ Z_to_string st ++ " " ++ stt)
        else match body with
             | inl m => inl m
             | inr value =>
               if negb (truthy_str value) then inl "Failed to get OIDC token: No value returned"
               else inr (match value with Some v => v | None => EmptyString end)
             end
      end in
    (r, [RBroker req]).

(** [registerCheck] (lines 47-77). *)
Definition registerCheck (env : RegEnv) (token endformUrl : string)
  : (string + unit) * list Request :=
  match GITHUB_SHA env with
  | Some sha =>
    if negb (truthy_str (Some sha)) then (inl "GITHUB_SHA environment variable is not set", [])
    else
      let req := mkRegisterRequest
                   (endformUrl ++ "/api/integrations/v1/actions/register-vercel-check")
                   ("Bearer " ++ token) sha in
      let r :=
        match api env req with
        | RegFailed m => inl m
        | RegResponse st stt text =>
          if negb (ok st) then
            inl ("Failed to register check: " ++ Z_to_string st ++ " " ++ stt ++ nl ++ text)
          else inr tt
        end in
      (r, [RRegister req])
  | None => (inl "GITHUB_SHA environment variable is not set", [])
  end.

(** [run] (lines 20-45): [inl msg] is passed to [core.setFailed], [inr msg]
    is the "message" output. *)
Definition run (env : RegEnv) : (string + string) * list Request :=
  let endformUrl :=
    match ENDFORM_URL env with
    | Some u => if truthy_str (Some u) then u else DEFAULT_ENDFORM_URL
    | None => DEFAULT_ENDFORM_URL
    end in
  match getOIDCToken env with
  | (inl m, l1) => (inl m, l1)
  | (inr token, l1) =>
    let (r, l2) := registerCheck env token endformUrl in
    (match r with
     | inl m => inl m
     | inr _ => inr "Check registered successfully"
     end, (l1 ++ l2)%list)
  end.

End RegisterVercelCheck.

(** ** Proofs *)

(** The 2xx part of [pollDeploymentStatus], after [response.json()]. *)
Definition poll_2xx (j : string + DeploymentStatusResponse) : PollResult :=
  match j with
  | inl m => PContinue ("Error checking deployment status: " ++ m)
  | inr result =>
    if String.eqb (status result) "READY" then
      if negb (truthy_str (deploymentURL result)) then
        PFatal "Deployment is ready but no URL was provided"
      else PSuccess result
    else if includes FAILED_STATUSES (status result) then
      PFatal ("Deployment failed with status: " ++ status result)
    else if includes IN_PROGRESS_STATUSES (status result) then
      PContinue ("Deployment status: " ++ status result)
    else
      PContinue ("Unknown deployment status: " ++ status result)
  end.

Lemma poll_ok_eq (r : Response) :
  ok (res_status r) = true -> pollDeploymentStatus (Fetched r) = poll_2xx (res_json r).
Proof.
  intros Hok. pose proof Hok as H. unfold ok in H. apply andb_true_iff in H as [H1 H2].
  apply Z.leb_le in H1. apply Z.ltb_lt in H2.
  unfold pollDeploymentStatus.
  replace (res_status r =? 400) with false by (symmetry; apply Z.eqb_neq; lia).
  replace (res_status r =? 403) with false by (symmetry; apply Z.eqb_neq; lia).
  replace (res_status r =? 409) with false by (symmetry; apply Z.eqb_neq; lia).
  replace (res_status r =? 404) with false by (symmetry; apply Z.eqb_neq; lia).
  replace ((500 <=? res_status r) && (res_status r <? 600)) with false
    by (symmetry; apply andb_false_iff; left; apply Z.leb_gt; lia).
  rewrite Hok. reflexivity.
Qed.

Lemma str_app_nil_r (s : string) : s ++ EmptyString = s.
Proof. induction s as [|c s IH]; simpl; [reflexivity | now rewrite IH]. Qed.

Lemma str_app_assoc (s t u : string) : s ++ (t ++ u) = (s ++ t) ++ u.
Proof. induction s as [|c s IH]; simpl; [reflexivity | now rewrite IH]. Qed.

(** [x] occurs in [s]. *)
Definition contains (s x : string) : Prop := exists pre post, s = pre ++ x ++ post.

Lemma contains_http_message (pfx st : string) (s : Z) (body : string) :
  contains (pfx ++ Z_to_string s ++ " " ++ st ++ nl ++ body) (Z_to_string s) /\
  contains (pfx ++ Z_to_string s ++ " " ++ st ++ nl ++ body) body.
Proof.
  split.
  - exists pfx, (" " ++ st ++ nl ++ body). reflexivity.
  - exists (pfx ++ Z_to_string s ++ " " ++ st ++ nl), EmptyString.
    rewrite str_app_nil_r, !str_app_assoc. reflexivity.
Qed.

Lemma loop_body_poll (env : Env) (a : WaitArgs) (startTime : Z) (s s1 : St)
  (t : TokenWithExpiry) (latency : Z) (out : FetchOutcome) :
  now s - startTime <= timeoutSeconds a * 1000 ->
  getValidToken env s = (inr t, s1) ->
  service env (polls s1) (status_request a (token t)) = (latency, out) ->
  let s3 := log (EPoll (status_request a (token t)) (pollDeploymentStatus out))
                (advance latency (count_poll (set_token t s1))) in
  loop_body env a startTime s =
  match pollDeploymentStatus out with
  | PSuccess data => Stop (WReady data) s3
  | PFatal error => Stop (WFatal error) s3
  | PContinue _ => Loop (log ESleep (advance POLL_INTERVAL_MS s3))
  end.
Proof.
  intros Ht Hv Hs s3. unfold loop_body.
  replace (now s - startTime >? timeoutSeconds a * 1000) with false
    by (symmetry; rewrite Z.gtb_ltb; apply Z.ltb_ge; lia).
  rewrite Hv. cbn [polls set_token]. rewrite Hs. reflexivity.
Qed.

Ltac ready_2xx Hok Hj :=
  rewrite (poll_ok_eq _ Hok); unfold poll_2xx; rewrite Hj.

(** C1: for a 2xx response whose payload has [status = "READY"], [Poll]
    returns [Success] carrying exactly that payload iff [deploymentURL] is
    present and non-empty; when it is absent or empty, [Poll] returns
    [Fatal] (which ends the wait) instead of [Continue]. *)
Theorem poll_ready_success_iff (r : Response) (d : DeploymentStatusResponse) :
  ok (res_status r) = true -> res_json r = inr d -> status d = "READY" ->
  (pollDeploymentStatus (Fetched r) = PSuccess d <->
     exists u, deploymentURL d = Some u /\ u <> EmptyString) /\
  (deploymentURL d = None \/ deploymentURL d = Some EmptyString ->
     pollDeploymentStatus (Fetched r) = PFatal "Deployment is ready but no URL was provided").
Proof.
  intros Hok Hj Hs. ready_2xx Hok Hj. rewrite Hs. cbn [String.eqb Ascii.eqb Bool.eqb].
  destruct (deploymentURL d) as [[|c u]|] eqn:Hu; simpl.
  - split; [split; [discriminate | intros (u & Hu' & Hne); congruence] | auto].
  - split; [split; [intros _; exists (String c u); split; [reflexivity | discriminate] | auto]
           | intros [H | H]; discriminate].
  - split; [split; [discriminate | intros (u & Hu' & _); discriminate] | auto].
Qed.

Lemma poll_ready_success_iff_witness :
  ok 200 = true /\
  (pollDeploymentStatus (Fetched (mkResponse 200 "OK" EmptyString
      (inr (mkDeploymentStatusResponse "d1" "READY" (Some "https://x.vercel.app")))))
   = PSuccess (mkDeploymentStatusResponse "d1" "READY" (Some "https://x.vercel.app"))
   <-> exists u, Some "https://x.vercel.app" = Some u /\ u <> EmptyString).
Proof.
  split; [reflexivity|].
  apply (proj1 (poll_ready_success_iff
    (mkResponse 200 "OK" EmptyString
       (inr (mkDeploymentStatusResponse "d1" "READY" (Some "https://x.vercel.app"))))
    (mkDeploymentStatusResponse "d1" "READY" (Some "https://x.vercel.app"))
    eq_refl eq_refl eq_refl)).
Defined.

(** C3: every response with HTTP status 400, 403, 409 or 500..599 is
    classified [Fatal] (never [Continue]) with a message containing the
    status and the response body, and the wait loop stops on it at once. *)
Theorem poll_fatal_statuses (r : Response) :
  let s := res_status r in
  (s = 400 \/ s = 403 \/ s = 409 \/ (500 <= s <= 599)) ->
  (exists e, pollDeploymentStatus (Fetched r) = PFatal e /\
             contains e (Z_to_string s) /\ contains e (res_text r)) /\
  (forall env a startTime st st1 t latency,
     now st - startTime <= timeoutSeconds a * 1000 ->
     getValidToken env st = (inr t, st1) ->
     service env (polls st1) (status_request a (token t)) = (latency, Fetched r) ->
     exists e st', loop_body env a startTime st = Stop (WFatal e) st').
Proof.
  intros s Hs.
  assert (Hp : exists e, pollDeploymentStatus (Fetched r) = PFatal e /\
             contains e (Z_to_string s) /\ contains e (res_text r)).
  { unfold pollDeploymentStatus. fold s.
    destruct Hs as [H | [H | [H | H]]].
    - rewrite H. eexists. split; [reflexivity | apply contains_http_message].
    - rewrite H. eexists. split; [reflexivity | apply contains_http_message].
    - rewrite H. eexists. split; [reflexivity | apply contains_http_message].
    - replace (s =? 400) with false by (symmetry; apply Z.eqb_neq; lia).
      replace (s =? 403) with false by (symmetry; apply Z.eqb_neq; lia).
      replace (s =? 409) with false by (symmetry; apply Z.eqb_neq; lia).
      replace (s =? 404) with false by (symmetry; apply Z.eqb_neq; lia).
      replace ((500 <=? s) && (s <? 600)) with true
        by (symmetry; apply andb_true_iff; split; [apply Z.leb_le | apply Z.ltb_lt]; lia).
      eexists. split; [reflexivity | apply contains_http_message]. }
  split; [exact Hp|].
  intros env a startTime st st1 t latency Ht Hv Hsv.
  destruct Hp as (e & He & _).
  rewrite (loop_body_poll env a startTime st st1 t latency (Fetched r) Ht Hv Hsv), He.
  eauto.
Qed.

Lemma poll_fatal_statuses_witness :
  exists e, pollDeploymentStatus (Fetched (mkResponse 502 "Bad Gateway" "upstream" (inl "x")))
            = PFatal e /\ contains e "502" /\ contains e "upstream".
Proof.
  apply (proj1 (poll_fatal_statuses (mkResponse 502 "Bad Gateway" "upstream" (inl "x"))
                  ltac:(simpl; lia))).
Defined.

Lemma includes_failed (x : string) :
  includes FAILED_STATUSES x = true <-> x = "ERROR" \/ x = "CANCELED".
Proof.
  unfold includes, FAILED_STATUSES; simpl.
  destruct (String.eqb_spec x "ERROR"), (String.eqb_spec x "CANCELED"); simpl;
    intuition congruence.
Qed.

Lemma includes_in_progress (x : string) :
  includes IN_PROGRESS_STATUSES x = true <->
  x = "BUILDING" \/ x = "INITIALIZING" \/ x = "QUEUED".
Proof.
  unfold includes, IN_PROGRESS_STATUSES; simpl.
  destruct (String.eqb_spec x "BUILDING"), (String.eqb_spec x "INITIALIZING"),
           (String.eqb_spec x "QUEUED"); simpl; intuition congruence.
Qed.

(** C4: for a 2xx response whose status is [ERROR] or [CANCELED], [Poll]
    returns [Fatal] with a message containing that status value. *)
Theorem poll_failed_status_fatal (r : Response) (d : DeploymentStatusResponse) :
  ok (res_status r) = true -> res_json r = inr d ->
  (status d = "ERROR" \/ status d = "CANCELED") ->
  pollDeploymentStatus (Fetched r) = PFatal ("Deployment failed with status: " ++ status d) /\
  contains ("Deployment failed with status: " ++ status d) (status d).
Proof.
  intros Hok Hj Hs. split.
  - ready_2xx Hok Hj.
    replace (String.eqb (status d) "READY") with false
      by (symmetry; apply String.eqb_neq; destruct Hs as [H | H]; rewrite H; discriminate).
    rewrite (proj2 (includes_failed (status d)) Hs). reflexivity.
  - exists "Deployment failed with status: ", EmptyString.
    now rewrite str_app_nil_r.
Qed.

Lemma poll_failed_status_fatal_witness :
  pollDeploymentStatus (Fetched (mkResponse 200 "OK" EmptyString
     (inr (mkDeploymentStatusResponse "d1" "CANCELED" None))))
  = PFatal ("Deployment failed with status: " ++ "CANCELED").
Proof.
  apply (proj1 (poll_failed_status_fatal
    (mkResponse 200 "OK" EmptyString (inr (mkDeploymentStatusResponse "d1" "CANCELED" None)))
    (mkDeploymentStatusResponse "d1" "CANCELED" None) eq_refl eq_refl (or_intror eq_refl))).
Defined.

(** C5: for a 2xx response whose status lies outside
    {QUEUED, INITIALIZING, BUILDING, READY, ERROR, CANCELED}, [Poll]
    returns [Continue], never [Fatal]. *)
Theorem poll_unknown_status_continue (r : Response) (d : DeploymentStatusResponse) :
  ok (res_status r) = true -> res_json r = inr d ->
  ~ In (status d) ["QUEUED"; "INITIALIZING"; "BUILDING"; "READY"; "ERROR"; "CANCELED"] ->
  pollDeploymentStatus (Fetched r) = PContinue ("Unknown deployment status: " ++ status d).
Proof.
  intros Hok Hj Hn. ready_2xx Hok Hj.
  replace (String.eqb (status d) "READY") with false
    by (symmetry; apply String.eqb_neq; intros H; apply Hn; rewrite H; simpl; tauto).
  destruct (includes FAILED_STATUSES (status d)) eqn:Hf.
  { apply includes_failed in Hf. exfalso; apply Hn.
    destruct Hf as [H | H]; rewrite H; simpl; tauto. }
  destruct (includes IN_PROGRESS_STATUSES (status d)) eqn:Hp.
  { apply includes_in_progress in Hp. exfalso; apply Hn.
    destruct Hp as [H | [H | H]]; rewrite H; simpl; tauto. }
  reflexivity.
Qed.

Lemma poll_unknown_status_continue_witness :
  pollDeploymentStatus (Fetched (mkResponse 200 "OK" EmptyString
     (inr (mkDeploymentStatusResponse "d1" "PENDING_REVIEW" None))))
  = PContinue ("Unknown deployment status: " ++ "PENDING_REVIEW").
Proof.
  apply (poll_unknown_status_continue
    (mkResponse 200 "OK" EmptyString (inr (mkDeploymentStatusResponse "d1" "PENDING_REVIEW" None)))
    (mkDeploymentStatusResponse "d1" "PENDING_REVIEW" None) eq_refl eq_refl).
  simpl. intuition discriminate.
Defined.

(** C6: a 404 response yields [Continue] whatever its body, and every other
    non-2xx status outside {400, 403, 409} and 500..599 yields [Continue]. *)
Theorem poll_404_and_other_non2xx_continue :
  (forall r : Response, res_status r = 404 ->
     pollDeploymentStatus (Fetched r) =
     PContinue "Deployment not found yet, waiting for it to be created") /\
  (forall r : Response,
     let s := res_status r in
     ok s = false -> s <> 400 -> s <> 403 -> s <> 409 -> ~ (500 <= s <= 599) ->
     exists reason, pollDeploymentStatus (Fetched r) = PContinue reason).
Proof.
  split.
  - intros r H. unfold pollDeploymentStatus. rewrite H. reflexivity.
  - intros r s Hok H400 H403 H409 H5xx. unfold pollDeploymentStatus. fold s.
    replace (s =? 400) with false by (symmetry; now apply Z.eqb_neq).
    replace (s =? 403) with false by (symmetry; now apply Z.eqb_neq).
    replace (s =? 409) with false by (symmetry; now apply Z.eqb_neq).
    replace ((500 <=? s) && (s <? 600)) with false.
    2:{ symmetry. apply not_true_iff_false. rewrite andb_true_iff, Z.leb_le, Z.ltb_lt. lia. }
    rewrite Hok. simpl. destruct (s =? 404); eexists; reflexivity.
Qed.

Lemma poll_404_and_other_non2xx_continue_witness :
  pollDeploymentStatus (Fetched (mkResponse 404 "Not Found" "{}" (inl "x"))) =
    PContinue "Deployment not found yet, waiting for it to be created" /\
  exists reason,
    pollDeploymentStatus (Fetched (mkResponse 429 "Too Many Requests" "slow down" (inl "x")))
    = PContinue reason.
Proof.
  split.
  - apply (proj1 poll_404_and_other_non2xx_continue). reflexivity.
  - apply (proj2 poll_404_and_other_non2xx_continue); simpl;
      [reflexivity | discriminate | discriminate | discriminate | lia].
Defined.

(** C10: [Poll] turns every exception of the request or of the response
    handling (a rejected [fetch] or body read, a 2xx body that
    [response.json()] cannot parse) into [Continue] with the reason
    "Error checking deployment status: ...", and on such a [Continue] the
    wait loop goes on to its next iteration rather than ending with an
    error. *)
Theorem poll_exceptions_continue :
  (forall m, pollDeploymentStatus (FetchFailed m) =
             PContinue ("Error checking deployment status: " ++ m)) /\
  (forall r m, ok (res_status r) = true -> res_json r = inl m ->
     pollDeploymentStatus (Fetched r) = PContinue ("Error checking deployment status: " ++ m)) /\
  (forall env a startTime st st1 t latency out m,
     now st - startTime <= timeoutSeconds a * 1000 ->
     getValidToken env st = (inr t, st1) ->
     service env (polls st1) (status_request a (token t)) = (latency, out) ->
     (out = FetchFailed m \/
      exists r, out = Fetched r /\ ok (res_status r) = true /\ res_json r = inl m) ->
     exists st', loop_body env a startTime st = Loop st').
Proof.
  assert (Hjs : forall r m, ok (res_status r) = true -> res_json r = inl m ->
     pollDeploymentStatus (Fetched r) = PContinue ("Error checking deployment status: " ++ m)).
  { intros r m Hok Hj. ready_2xx Hok Hj. reflexivity. }
  split; [reflexivity | split; [exact Hjs |]].
  intros env a startTime st st1 t latency out m Ht Hv Hs Hout.
  rewrite (loop_body_poll env a startTime st st1 t latency out Ht Hv Hs).
  destruct Hout as [-> | (r & -> & Hok & Hj)].
  - simpl. eauto.
  - rewrite (Hjs r m Hok Hj). eauto.
Qed.

Definition network_down_env : Env :=
  sample_env "h.eyJleHAiOjE3MDAwMDAwMDB9.s" 10 (fun _ => FetchFailed "ECONNRESET").

Definition fresh_state : St := mkSt 0 (mkTokenWithExpiry "t0" (10 ^ 15)) 0 0 [].

Lemma poll_exceptions_continue_witness :
  pollDeploymentStatus (Fetched (mkResponse 200 "OK" "<html>" (inl "Unexpected token <")))
  = PContinue ("Error checking deployment status: " ++ "Unexpected token <") /\
  exists st', loop_body network_down_env (sample_args 600) 0 fresh_state = Loop st'.
Proof.
  split.
  - apply (proj1 (proj2 poll_exceptions_continue)); reflexivity.
  - apply (proj2 (proj2 poll_exceptions_continue) network_down_env (sample_args 600) 0
             fresh_state fresh_state (currentToken fresh_state) 10
             (FetchFailed "ECONNRESET") "ECONNRESET").
    + simpl. lia.
    + vm_compute. reflexivity.
    + reflexivity.
    + left. reflexivity.
Defined.

(** C7: [NeedsRefresh(c, now)] holds iff [c.expiresAt - now <= 30000] ms;
    it holds at exactly 30000 ms remaining and fails at 30001 ms. *)
Theorem shouldRefreshToken_iff :
  (forall c now, shouldRefreshToken c now = true <-> (expiresAt c - inject_Z now <= 30000)%Q) /\
  (forall tok now, shouldRefreshToken (mkTokenWithExpiry tok (inject_Z (now + 30000))) now = true) /\
  (forall tok now, shouldRefreshToken (mkTokenWithExpiry tok (inject_Z (now + 30001))) now = false).
Proof.
  split; [|split].
  - intros c now. unfold shouldRefreshToken. apply Qle_bool_iff.
  - intros tok now. unfold shouldRefreshToken. apply Qle_bool_iff. simpl.
    unfold Qle, Qminus, Qplus, Qopp; simpl. lia.
  - intros tok now. unfold shouldRefreshToken. apply not_true_iff_false.
    rewrite Qle_bool_iff. simpl. unfold Qle, Qminus, Qplus, Qopp; simpl. lia.
Qed.

Lemma createTokenWithExpiry_state (env : Env) (s s1 : St) r :
  createTokenWithExpiry env s = (r, s1) ->
  polls s1 = polls s /\ trace s1 = trace s /\ currentToken s1 = currentToken s.
Proof.
  unfold createTokenWithExpiry.
  destruct (negb (truthy_str (ACTIONS_ID_TOKEN_REQUEST_URL env)) ||
            negb (truthy_str (ACTIONS_ID_TOKEN_REQUEST_TOKEN env))).
  - intros H; injection H as _ <-; auto.
  - destruct (broker env _ _) as [latency out].
    intros H; injection H as _ <-; simpl; auto.
Qed.

Lemma getValidToken_polls (env : Env) (s s1 : St) r :
  getValidToken env s = (r, s1) -> polls s1 = polls s.
Proof.
  unfold getValidToken. destruct (shouldRefreshToken _ _).
  - destruct (createTokenWithExpiry env s) as [[e | t] s2] eqn:Hc;
      apply createTokenWithExpiry_state in Hc as (Hp & _);
      intros H; injection H as _ <-; exact Hp.
  - intros H; injection H as _ <-; reflexivity.
Qed.

Definition step_state (st : Step) : St :=
  match st with Stop _ s => s | Loop s => s end.

Lemma loop_body_polls (env : Env) (a : WaitArgs) (startTime : Z) (s : St) :
  (polls s <= polls (step_state (loop_body env a startTime s)))%nat.
Proof.
  unfold loop_body.
  destruct (now s - startTime >? timeoutSeconds a * 1000); [simpl; lia|].
  destruct (getValidToken env s) as [[e | t] s1] eqn:Hv;
    apply getValidToken_polls in Hv; [simpl; lia|].
  destruct (service env _ _) as [latency out].
  destruct (pollDeploymentStatus out); simpl; lia.
Qed.

Lemma wait_loop_polls fuel env a startTime s o s' :
  wait_loop fuel env a startTime s = (o, s') -> (polls s <= polls s')%nat.
Proof.
  revert s. induction fuel as [|f IH]; simpl; intros s H.
  - injection H as _ <-. lia.
  - pose proof (loop_body_polls env a startTime s) as Hm.
    destruct (loop_body env a startTime s) as [o' s1 | s1]; simpl in Hm.
    + injection H as _ <-. exact Hm.
    + specialize (IH s1 H). lia.
Qed.

Lemma loop_body_timeout_iff env a startTime s x s' :
  loop_body env a startTime s = Stop (WTimeout x) s' <->
  now s - startTime > timeoutSeconds a * 1000 /\ s' = s /\ x = timeoutSeconds a.
Proof.
  unfold loop_body.
  destruct (now s - startTime >? timeoutSeconds a * 1000) eqn:Ht.
  - apply Z.gtb_lt in Ht. split.
    + intros H; injection H as <- <-. repeat split; auto; lia.
    + intros (_ & -> & ->). reflexivity.
  - rewrite Z.gtb_ltb, Z.ltb_ge in Ht. split; [| intros (H & _); lia].
    destruct (getValidToken env s) as [[e | t] s1]; [discriminate|].
    destruct (service env _ _) as [latency out].
    destruct (pollDeploymentStatus out); discriminate.
Qed.

Lemma wait_loop_timeout fuel env a startTime s x s' :
  wait_loop fuel env a startTime s = (WTimeout x, s') ->
  now s' - startTime > timeoutSeconds a * 1000 /\ x = timeoutSeconds a.
Proof.
  revert s. induction fuel as [|f IH]; simpl; intros s H; [discriminate|].
  destruct (loop_body env a startTime s) as [o s1 | s1] eqn:Hb.
  - injection H as -> <-. apply loop_body_timeout_iff in Hb as (H1 & -> & ->). auto.
  - exact (IH s1 H).
Qed.

(** C2: the timeout is decided only by the check at the top of an
    iteration, which fires (before anything else of the iteration) exactly
    when the elapsed time exceeds [timeoutSeconds * 1000]; for a positive
    budget, a wait that ends in the timeout error has made at least one
    status request first. The poller's [PollResult] has no timeout case:
    [WTimeout] comes only from the loop's own check. *)
Theorem wait_timeout_only_after_poll :
  (forall env a startTime s x s',
     loop_body env a startTime s = Stop (WTimeout x) s' <->
     now s - startTime > timeoutSeconds a * 1000 /\ s' = s /\ x = timeoutSeconds a) /\
  (forall fuel env initialToken a startTime x s',
     0 < timeoutSeconds a ->
     waitForVercelDeployment fuel env initialToken a startTime = (WTimeout x, s') ->
     now s' - startTime > timeoutSeconds a * 1000 /\ x = timeoutSeconds a /\ (1 <= polls s')%nat).
Proof.
  split; [exact loop_body_timeout_iff|].
  intros fuel env initialToken a startTime x s' Hpos H.
  pose proof (wait_loop_timeout _ _ _ _ _ _ _ H) as [Ht Hx].
  split; [exact Ht | split; [exact Hx|]].
  unfold waitForVercelDeployment in H.
  destruct fuel as [|f]; simpl in H; [discriminate|].
  set (s0 := mkSt startTime initialToken 0 0 []) in H.
  assert (Hnt : now s0 - startTime <= timeoutSeconds a * 1000) by (simpl; lia).
  destruct (getValidToken env s0) as [[e | t] s1] eqn:Hv.
  - unfold loop_body in H.
    replace (now s0 - startTime >? timeoutSeconds a * 1000) with false in H
      by (symmetry; rewrite Z.gtb_ltb; apply Z.ltb_ge; lia).
    rewrite Hv in H. discriminate.
  - pose proof (getValidToken_polls _ _ _ _ Hv) as Hp1.
    destruct (service env (polls s1) (status_request a (token t))) as [latency out] eqn:Hs.
    rewrite (loop_body_poll env a startTime s0 s1 t latency out Hnt Hv Hs) in H.
    destruct (pollDeploymentStatus out); try discriminate.
    apply wait_loop_polls in H. simpl in H, Hp1. lia.
Qed.

Definition not_found_env : Env :=
  sample_env "h.eyJleHAiOjE3MDAwMDAwMDB9.s" 10
             (fun _ => Fetched (mkResponse 404 "Not Found" EmptyString (inl "x"))).

Definition timeout_run : WaitOutcome * St :=
  waitForVercelDeployment 5%nat not_found_env (mkTokenWithExpiry "t0" (10 ^ 15)) (sample_args 1) 0.

Lemma wait_timeout_only_after_poll_witness :
  now (snd timeout_run) - 0 > 1 * 1000 /\ 1 = timeoutSeconds (sample_args 1) /\
  (1 <= polls (snd timeout_run))%nat.
Proof.
  apply (proj2 wait_timeout_only_after_poll 5%nat not_found_env (mkTokenWithExpiry "t0" (10 ^ 15))
           (sample_args 1) 0 1 (snd timeout_run)).
  - simpl. lia.
  - vm_compute. reflexivity.
Defined.

(** C8: in an iteration that passes the timeout check, when the current
    token needs a refresh, [createTokenWithExpiry] is called before the
    status request: if it fails, the iteration, and the whole wait, ends
    with that error and no status request is made; if it succeeds with [t],
    the [currentToken] binding becomes [t] and the status request of the
    iteration carries [t]'s token. When no refresh is needed, no token is
    acquired and the request carries the current token. *)
Theorem refresh_before_poll (env : Env) (a : WaitArgs) (startTime : Z) (s : St) :
  now s - startTime <= timeoutSeconds a * 1000 ->
  (shouldRefreshToken (currentToken s) (now s) = true ->
   match createTokenWithExpiry env s with
   | (inl e, s1) =>
     loop_body env a startTime s = Stop (WRefreshFailed e) s1 /\ polls s1 = polls s /\
     (forall f, wait_loop (S f) env a startTime s = (WRefreshFailed e, s1))
   | (inr t, s1) =>
     exists r rest,
       currentToken (step_state (loop_body env a startTime s)) = t /\
       trace (step_state (loop_body env a startTime s)) =
       (trace s ++ ERefresh t :: EPoll (status_request a (token t)) r :: rest)%list
   end) /\
  (shouldRefreshToken (currentToken s) (now s) = false ->
   exists r rest,
     acquires (step_state (loop_body env a startTime s)) = acquires s /\
     trace (step_state (loop_body env a startTime s)) =
     (trace s ++ EPoll (status_request a (token (currentToken s))) r :: rest)%list).
Proof.
  intros Hnt.
  assert (Hf : (now s - startTime >? timeoutSeconds a * 1000) = false)
    by (rewrite Z.gtb_ltb; apply Z.ltb_ge; lia).
  split.
  - intros Hr.
    destruct (createTokenWithExpiry env s) as [[e | t] s1] eqn:Hc;
      pose proof (createTokenWithExpiry_state _ _ _ _ Hc) as (Hp & Htr & _).
    + assert (Hb : loop_body env a startTime s = Stop (WRefreshFailed e) s1)
        by (unfold loop_body, getValidToken; rewrite Hf, Hr, Hc; reflexivity).
      split; [exact Hb | split; [exact Hp |]].
      intros f. simpl. rewrite Hb. reflexivity.
    + assert (Hv : getValidToken env s = (inr t, log (ERefresh t) s1))
        by (unfold getValidToken; rewrite Hr, Hc; reflexivity).
      destruct (service env (polls (log (ERefresh t) s1)) (status_request a (token t)))
        as [latency out] eqn:Hs.
      rewrite (loop_body_poll env a startTime s _ t latency out Hnt Hv Hs).
      exists (pollDeploymentStatus out).
      destruct (pollDeploymentStatus out);
        [exists [] | exists [ESleep] | exists []]; simpl; rewrite Htr, <- !app_assoc;
        simpl; split; reflexivity.
  - intros Hr.
    assert (Hv : getValidToken env s = (inr (currentToken s), s))
      by (unfold getValidToken; rewrite Hr; reflexivity).
    destruct (service env (polls s) (status_request a (token (currentToken s))))
      as [latency out] eqn:Hs.
    rewrite (loop_body_poll env a startTime s s _ latency out Hnt Hv Hs).
    exists (pollDeploymentStatus out).
    destruct (pollDeploymentStatus out);
      [exists [] | exists [ESleep] | exists []]; simpl; rewrite <- ?app_assoc;
      simpl; split; reflexivity.
Qed.

(** Scenario B of the spec: a token expiring 20 s after [now] is refreshed. *)
Definition expiring_state : St :=
  mkSt 0 (mkTokenWithExpiry "old" 20000) 0 0 [].

(** A broker whose token (base64url of [{"exp":9000000000000}]) expires
    9e15 ms after the epoch, beyond the range of a [Date]. *)
Definition late_token_env : Env :=
  sample_env "h.eyJleHAiOjkwMDAwMDAwMDAwMDB9.s" 10 (fun _ => FetchFailed "x").

Lemma refresh_before_poll_witness :
  (loop_body late_token_env (sample_args 600) 0 expiring_state =
     Stop (WRefreshFailed InvalidTimeValue) (snd (createTokenWithExpiry late_token_env expiring_state)) /\
   polls (snd (createTokenWithExpiry late_token_env expiring_state)) = polls expiring_state) /\
  exists r rest,
    currentToken (step_state (loop_body not_found_env (sample_args 600) 0 expiring_state))
      = mkTokenWithExpiry "h.eyJleHAiOjE3MDAwMDAwMDB9.s" (1700000000 * 1000) /\
    trace (step_state (loop_body not_found_env (sample_args 600) 0 expiring_state)) =
    ([] ++ ERefresh (mkTokenWithExpiry "h.eyJleHAiOjE3MDAwMDAwMDB9.s" (1700000000 * 1000))
        :: EPoll (status_request (sample_args 600) "h.eyJleHAiOjE3MDAwMDAwMDB9.s") r :: rest)%list.
Proof.
  split.
  - pose proof (proj1 (refresh_before_poll late_token_env (sample_args 600) 0 expiring_state
                         ltac:(simpl; lia)) ltac:(vm_compute; reflexivity)) as H.
    vm_compute in H. vm_compute. exact (conj (proj1 H) (proj1 (proj2 H))).
  - pose proof (proj1 (refresh_before_poll not_found_env (sample_args 600) 0 expiring_state
                         ltac:(simpl; lia)) ltac:(vm_compute; reflexivity)) as H.
    vm_compute in H. vm_compute. exact H.
Defined.



(** * Further properties of the code *)

Ltac split_ifs_in H :=
  repeat (match type of H with
          | context [if ?c then _ else _] =>
            lazymatch c with
            | true => fail
            | false => fail
            | _ => let E := fresh "E" in destruct c eqn:E; cbn iota in H
            end
          end).

Lemma poll_success_inv (out : FetchOutcome) (d : DeploymentStatusResponse) :
  pollDeploymentStatus out = PSuccess d ->
  exists r, out = Fetched r /\ ok (res_status r) = true /\ res_json r = inr d /\
            status d = "READY" /\ truthy_str (deploymentURL d) = true.
Proof.
  intros H. destruct out as [m | r]; [discriminate|].
  unfold pollDeploymentStatus in H; cbn zeta iota in H.
  split_ifs_in H; try discriminate.
  destruct (res_json r) as [m | result] eqn:Hj; try discriminate.
  split_ifs_in H; try discriminate.
  injection H as <-. exists r.
  rewrite negb_false_iff in *. apply String.eqb_eq in E5.
  repeat split; assumption.
Qed.

Lemma poll_success_inv2 (out : FetchOutcome) (d : DeploymentStatusResponse) :
  Revision2.pollDeploymentStatus out = PSuccess d ->
  exists r, out = Fetched r /\ ok (res_status r) = true /\ res_json r = inr d /\
            status d = "READY" /\ truthy_str (deploymentURL d) = true.
Proof.
  intros H. destruct out as [m | r]; [discriminate|].
  unfold Revision2.pollDeploymentStatus in H; cbn zeta iota in H.
  split_ifs_in H; try discriminate.
  destruct (res_json r) as [m | result] eqn:Hj; try discriminate.
  split_ifs_in H; try discriminate.
  injection H as <-. exists r.
  rewrite negb_false_iff in *. apply String.eqb_eq in E3.
  repeat split; assumption.
Qed.

(** X1: in both revisions of [pollDeploymentStatus], a [success] result
    comes only from a 2xx response whose body parsed to a deployment with
    status [READY] and a non-empty [deploymentURL]; the data returned is that
    body. *)
Theorem poll_success_only_ready :
  (forall out d, pollDeploymentStatus out = PSuccess d ->
     exists r, out = Fetched r /\ ok (res_status r) = true /\ res_json r = inr d /\
               status d = "READY" /\ truthy_str (deploymentURL d) = true) /\
  (forall out d, Revision2.pollDeploymentStatus out = PSuccess d ->
     exists r, out = Fetched r /\ ok (res_status r) = true /\ res_json r = inr d /\
               status d = "READY" /\ truthy_str (deploymentURL d) = true).
Proof. split; [exact poll_success_inv | exact poll_success_inv2]. Qed.

Lemma poll_success_only_ready_witness :
  exists r, Fetched (mkResponse 200 "OK" EmptyString
                     (inr (mkDeploymentStatusResponse "d1" "READY" (Some "https://x.vercel.app"))))
            = Fetched r /\ ok (res_status r) = true /\
            res_json r = inr (mkDeploymentStatusResponse "d1" "READY" (Some "https://x.vercel.app")) /\
            status (mkDeploymentStatusResponse "d1" "READY" (Some "https://x.vercel.app")) = "READY" /\
            truthy_str (deploymentURL (mkDeploymentStatusResponse "d1" "READY"
                                        (Some "https://x.vercel.app"))) = true.
Proof.
  apply (proj1 poll_success_only_ready). vm_compute. reflexivity.
Defined.

(** X2: the two revisions of [pollDeploymentStatus] agree on every outcome
    except a response with status 409 or 5xx: the first revision treats it
    as fatal, the second as a transient [API request failed] error and keeps
    polling. *)
Theorem revision2_poll_differs_only_on_409_5xx :
  (forall m, Revision2.pollDeploymentStatus (FetchFailed m) = pollDeploymentStatus (FetchFailed m)) /\
  (forall r, res_status r <> 409 -> ~ (500 <= res_status r < 600) ->
     Revision2.pollDeploymentStatus (Fetched r) = pollDeploymentStatus (Fetched r)) /\
  (forall r, (res_status r = 409 \/ 500 <= res_status r < 600) ->
     Revision2.pollDeploymentStatus (Fetched r) =
       PContinue ("API request failed: " ++ Z_to_string (res_status r) ++ " "
                  ++ res_statusText r ++ nl ++ res_text r) /\
     exists e, pollDeploymentStatus (Fetched r) = PFatal e).
Proof.
  split; [reflexivity | split].
  - intros r H409 H5.
    assert (E1 : (res_status r =? 409) = false) by (apply Z.eqb_neq; exact H409).
    assert (E2 : ((500 <=? res_status r) && (res_status r <? 600)) = false).
    { destruct (500 <=? res_status r) eqn:Ha, (res_status r <? 600) eqn:Hb; try reflexivity.
      apply Z.leb_le in Ha. apply Z.ltb_lt in Hb. lia. }
    unfold pollDeploymentStatus, Revision2.pollDeploymentStatus; cbn zeta iota.
    rewrite E1, E2. reflexivity.
  - intros r H.
    assert (Hn : ok (res_status r) = false).
    { unfold ok. destruct H as [H | H]; [rewrite H; reflexivity|].
      destruct (200 <=? res_status r) eqn:Ha; [|reflexivity].
      apply Z.ltb_ge. lia. }
    assert (N400 : (res_status r =? 400) = false) by (apply Z.eqb_neq; lia).
    assert (N403 : (res_status r =? 403) = false) by (apply Z.eqb_neq; lia).
    assert (N404 : (res_status r =? 404) = false) by (apply Z.eqb_neq; lia).
    unfold pollDeploymentStatus, Revision2.pollDeploymentStatus; cbn zeta iota.
    rewrite N400, N403, N404, Hn. split; [reflexivity|].
    destruct (res_status r =? 409) eqn:E; [eexists; reflexivity|].
    assert (E2 : ((500 <=? res_status r) && (res_status r <? 600)) = true).
    { apply Z.eqb_neq in E. apply andb_true_iff. rewrite Z.leb_le, Z.ltb_lt. lia. }
    rewrite E2. eexists; reflexivity.
Qed.

Lemma revision2_poll_differs_only_on_409_5xx_witness :
  Revision2.pollDeploymentStatus (Fetched (mkResponse 503 "Service Unavailable" "busy" (inl "x"))) =
    PContinue ("API request failed: " ++ Z_to_string 503 ++ " " ++ "Service Unavailable" ++ nl ++ "busy") /\
  exists e, pollDeploymentStatus (Fetched (mkResponse 503 "Service Unavailable" "busy" (inl "x"))) = PFatal e.
Proof.
  apply (proj2 (proj2 revision2_poll_differs_only_on_409_5xx)
           (mkResponse 503 "Service Unavailable" "busy" (inl "x"))).
  simpl. lia.
Defined.

(** How an iteration of the first revision's loop stops with a result of
    [pollDeploymentStatus]. *)
Lemma loop_body_stop_poll env a startTime s o s' :
  loop_body env a startTime s = Stop o s' ->
  (forall d, o = WReady d -> exists out req tr,
     pollDeploymentStatus out = PSuccess d /\ trace s' = (tr ++ [EPoll req (PSuccess d)])%list) /\
  (forall e, o = WFatal e -> exists out req tr,
     pollDeploymentStatus out = PFatal e /\ trace s' = (tr ++ [EPoll req (PFatal e)])%list).
Proof.
  unfold loop_body. intros H.
  destruct (now s - startTime >? timeoutSeconds a * 1000).
  { injection H as <- <-. split; intros; discriminate. }
  destruct (getValidToken env s) as [[e | t] s1].
  { injection H as <- <-. split; intros; discriminate. }
  match type of H with context [service ?e ?i ?r] => destruct (service e i r) as [lat out] end.
  destruct (pollDeploymentStatus out) as [data | reason | error] eqn:Hp;
    try discriminate; injection H as <- <-; split; intros x Hx; try discriminate;
    injection Hx as ->; do 3 eexists; (split; [eassumption | reflexivity]).
Qed.

Lemma wait_loop_stop_poll fuel env a startTime s o s' :
  wait_loop fuel env a startTime s = (o, s') ->
  (forall d, o = WReady d -> exists out req tr,
     pollDeploymentStatus out = PSuccess d /\ trace s' = (tr ++ [EPoll req (PSuccess d)])%list) /\
  (forall e, o = WFatal e -> exists out req tr,
     pollDeploymentStatus out = PFatal e /\ trace s' = (tr ++ [EPoll req (PFatal e)])%list).
Proof.
  revert s. induction fuel as [|f IH]; intros s H; simpl in H.
  - injection H as <- <-. split; intros; discriminate.
  - destruct (loop_body env a startTime s) as [o' s1 | s1] eqn:Hb.
    + injection H as <- <-. exact (loop_body_stop_poll _ _ _ _ _ _ Hb).
    + exact (IH s1 H).
Qed.

(** X3: when the wait of the first revision returns a deployment, that
    deployment has status [READY] and a non-empty URL and is the result of
    the last status request made; when it fails with a fatal poll error,
    that error is the result of the last status request made. *)
Theorem wait_result_is_last_poll fuel env initialToken a startTime o s' :
  waitForVercelDeployment fuel env initialToken a startTime = (o, s') ->
  (forall d, o = WReady d ->
     status d = "READY" /\ truthy_str (deploymentURL d) = true /\
     exists req tr, trace s' = (tr ++ [EPoll req (PSuccess d)])%list) /\
  (forall e, o = WFatal e -> exists req tr, trace s' = (tr ++ [EPoll req (PFatal e)])%list).
Proof.
  intros H. destruct (wait_loop_stop_poll _ _ _ _ _ _ _ H) as [Hr Hf]. split.
  - intros d Hd. destruct (Hr d Hd) as (out & req & tr & Hp & Ht).
    destruct (poll_success_inv _ _ Hp) as (r & _ & _ & _ & Hs & Hu).
    split; [exact Hs | split; [exact Hu | eauto]].
  - intros e He. destruct (Hf e He) as (out & req & tr & _ & Ht). eauto.
Qed.

Definition ready_run : WaitOutcome * St :=
  waitForVercelDeployment 10 (sample_env "h.eyJleHAiOjE3MDAwMDAwMDB9.s" 10 building_then_ready)
    (mkTokenWithExpiry "t0" (10 ^ 15)) (sample_args 20) 0.

Lemma wait_result_is_last_poll_witness :
  (forall d, fst ready_run = WReady d ->
     status d = "READY" /\ truthy_str (deploymentURL d) = true /\
     exists req tr, trace (snd ready_run) = (tr ++ [EPoll req (PSuccess d)])%list) /\
  (forall e, fst ready_run = WFatal e ->
     exists req tr, trace (snd ready_run) = (tr ++ [EPoll req (PFatal e)])%list).
Proof.
  apply (wait_result_is_last_poll 10 (sample_env "h.eyJleHAiOjE3MDAwMDAwMDB9.s" 10 building_then_ready)
           (mkTokenWithExpiry "t0" (10 ^ 15)) (sample_args 20) 0).
  vm_compute. reflexivity.
Defined.

Lemma loop_body2_stop_poll env a token startTime s o s' :
  Revision2.loop_body env a token startTime s = Revision2.Stop2 o s' ->
  (forall d, o = WReady d -> exists out req tr,
     Revision2.pollDeploymentStatus out = PSuccess d /\
     Revision2.trace2 s' = (tr ++ [EPoll req (PSuccess d)])%list) /\
  (forall e, o = WFatal e -> exists out req tr,
     Revision2.pollDeploymentStatus out = PFatal e /\
     Revision2.trace2 s' = (tr ++ [EPoll req (PFatal e)])%list).
Proof.
  unfold Revision2.loop_body. intros H.
  destruct (Revision2.now2 s - startTime >? timeoutSeconds a * 1000).
  { injection H as <- <-. split; intros; discriminate. }
  match type of H with context [service ?e ?i ?r] => destruct (service e i r) as [lat out] end.
  destruct (Revision2.pollDeploymentStatus out) as [data | reason | error] eqn:Hp;
    try discriminate; injection H as <- <-; split; intros x Hx; try discriminate;
    injection Hx as ->; do 3 eexists; (split; [eassumption | reflexivity]).
Qed.

Lemma wait_loop2_stop_poll fuel env a token startTime s o s' :
  Revision2.wait_loop fuel env a token startTime s = (o, s') ->
  (forall d, o = WReady d -> exists out req tr,
     Revision2.pollDeploymentStatus out = PSuccess d /\
     Revision2.trace2 s' = (tr ++ [EPoll req (PSuccess d)])%list) /\
  (forall e, o = WFatal e -> exists out req tr,
     Revision2.pollDeploymentStatus out = PFatal e /\
     Revision2.trace2 s' = (tr ++ [EPoll req (PFatal e)])%list).
Proof.
  revert s. induction fuel as [|f IH]; intros s H; simpl in H.
  - injection H as <- <-. split; intros; discriminate.
  - destruct (Revision2.loop_body env a token startTime s) as [o' s1 | s1] eqn:Hb.
    + injection H as <- <-. exact (loop_body2_stop_poll _ _ _ _ _ _ _ Hb).
    + exact (IH s1 H).
Qed.

(** X4: the same for the second revision's wait: a returned deployment has
    status [READY] and a non-empty URL and is the result of the last status
    request; a fatal error is the result of the last status request. *)
Theorem wait2_result_is_last_poll fuel env token a startTime o s' :
  Revision2.waitForVercelDeployment fuel env token a startTime = (o, s') ->
  (forall d, o = WReady d ->
     status d = "READY" /\ truthy_str (deploymentURL d) = true /\
     exists req tr, Revision2.trace2 s' = (tr ++ [EPoll req (PSuccess d)])%list) /\
  (forall e, o = WFatal e ->
     exists req tr, Revision2.trace2 s' = (tr ++ [EPoll req (PFatal e)])%list).
Proof.
  intros H. destruct (wait_loop2_stop_poll _ _ _ _ _ _ _ _ H) as [Hr Hf]. split.
  - intros d Hd. destruct (Hr d Hd) as (out & req & tr & Hp & Ht).
    destruct (poll_success_inv2 _ _ Hp) as (r & _ & _ & _ & Hs & Hu).
    split; [exact Hs | split; [exact Hu | eauto]].
  - intros e He. destruct (Hf e He) as (out & req & tr & _ & Ht). eauto.
Qed.

Definition ready_run2 : WaitOutcome * Revision2.St2 :=
  Revision2.waitForVercelDeployment 10 (sample_env "h.eyJleHAiOjE3MDAwMDAwMDB9.s" 10 building_then_ready)
    "t0" (sample_args 20) 0.

Lemma wait2_result_is_last_poll_witness :
  (forall d, fst ready_run2 = WReady d ->
     status d = "READY" /\ truthy_str (deploymentURL d) = true /\
     exists req tr, Revision2.trace2 (snd ready_run2) = (tr ++ [EPoll req (PSuccess d)])%list) /\
  (forall e, fst ready_run2 = WFatal e ->
     exists req tr, Revision2.trace2 (snd ready_run2) = (tr ++ [EPoll req (PFatal e)])%list).
Proof.
  apply (wait2_result_is_last_poll 10 (sample_env "h.eyJleHAiOjE3MDAwMDAwMDB9.s" 10 building_then_ready)
           "t0" (sample_args 20) 0).
  vm_compute. reflexivity.
Defined.

Section PollBound.

Variable env : Env.
Variable a : WaitArgs.
Variable startTime : Z.
Hypothesis broker_latency : forall i r, 0 <= fst (broker env i r).
Hypothesis service_latency : forall i r, 0 <= fst (service env i r).

Lemma createTokenWithExpiry_now (s s1 : St) r :
  createTokenWithExpiry env s = (r, s1) -> now s <= now s1.
Proof.
  unfold createTokenWithExpiry. intros H.
  destruct (negb (truthy_str (ACTIONS_ID_TOKEN_REQUEST_URL env)) ||
            negb (truthy_str (ACTIONS_ID_TOKEN_REQUEST_TOKEN env))).
  - injection H as _ <-. lia.
  - match type of H with context [broker ?e ?i ?q] =>
      pose proof (broker_latency i q); destruct (broker e i q) as [lat out] end.
    injection H as _ <-. simpl in *. lia.
Qed.

Lemma getValidToken_now (s s1 : St) r :
  getValidToken env s = (r, s1) -> now s <= now s1.
Proof.
  unfold getValidToken. intros H.
  destruct (shouldRefreshToken (currentToken s) (now s)).
  - destruct (createTokenWithExpiry env s) as [[e | t] s'] eqn:Hc;
      pose proof (createTokenWithExpiry_now _ _ _ Hc); injection H as _ <-; simpl; lia.
  - injection H as _ <-. lia.
Qed.

(** Every status request made so far was sent no later than the deadline,
    and each one sent before the current iteration was followed by a
    [POLL_INTERVAL_MS] sleep. *)
Definition spaced (s : St) : Prop :=
  POLL_INTERVAL_MS * Z.of_nat (polls s) <= now s - startTime.
Definition bounded (s : St) : Prop :=
  POLL_INTERVAL_MS * (Z.of_nat (polls s) - 1) <= timeoutSeconds a * 1000.

Lemma loop_body_bound (s : St) :
  spaced s -> bounded s ->
  match loop_body env a startTime s with
  | Stop _ s' => bounded s'
  | Loop s' => spaced s' /\ bounded s'
  end.
Proof.
  unfold spaced, bounded. intros Hsp Hbd.
  unfold loop_body.
  destruct (now s - startTime >? timeoutSeconds a * 1000) eqn:Ht; [exact Hbd|].
  rewrite Z.gtb_ltb, Z.ltb_ge in Ht.
  destruct (getValidToken env s) as [[e | t] s1] eqn:Hv;
    pose proof (getValidToken_polls _ _ _ _ Hv) as Hp;
    pose proof (getValidToken_now _ _ _ Hv) as Hn.
  - rewrite Hp. exact Hbd.
  - match goal with |- context [service ?e ?i ?q] =>
      pose proof (service_latency i q); destruct (service e i q) as [lat out] end.
    cbn [fst] in *.
    destruct (pollDeploymentStatus out);
      cbn [now polls log advance count_poll set_token]; rewrite ?Hp, ?Nat2Z.inj_succ;
      unfold POLL_INTERVAL_MS in *; try split; lia.
Qed.

Lemma wait_loop_bound fuel (s : St) o s' :
  spaced s -> bounded s -> wait_loop fuel env a startTime s = (o, s') -> bounded s'.
Proof.
  revert s. induction fuel as [|f IH]; intros s Hsp Hbd H; simpl in H.
  - injection H as _ <-. exact Hbd.
  - pose proof (loop_body_bound s Hsp Hbd) as Hb.
    destruct (loop_body env a startTime s) as [o' s1 | s1].
    + injection H as _ <-. exact Hb.
    + exact (IH s1 (proj1 Hb) (proj2 Hb) H).
Qed.

End PollBound.

(** X5: when every request takes a non-negative time and the timeout is not
    negative, the first revision's wait sends at most
    [timeoutSeconds / 5 + 1] status requests, whatever happens: two status
    requests are always at least [POLL_INTERVAL_MS] apart, and none is sent
    after the deadline. *)
Theorem wait_poll_count_bound fuel env initialToken a startTime o s' :
  (forall i r, 0 <= fst (broker env i r)) ->
  (forall i r, 0 <= fst (service env i r)) ->
  0 <= timeoutSeconds a ->
  waitForVercelDeployment fuel env initialToken a startTime = (o, s') ->
  POLL_INTERVAL_MS * (Z.of_nat (polls s') - 1) <= timeoutSeconds a * 1000.
Proof.
  intros Hb Hs Ht H.
  apply (wait_loop_bound env a startTime Hb Hs fuel (mkSt startTime initialToken 0 0 []) o s');
    [| | exact H]; unfold spaced, bounded, POLL_INTERVAL_MS; cbn [now polls Z.of_nat]; lia.
Qed.

Definition not_found_run : WaitOutcome * St :=
  waitForVercelDeployment 20 (sample_env "h.eyJleHAiOjE3MDAwMDAwMDB9.s" 10
      (fun _ => Fetched (mkResponse 404 "Not Found" EmptyString (inl "x"))))
    (mkTokenWithExpiry "t0" (10 ^ 15)) (sample_args 30) 0.

Lemma wait_poll_count_bound_witness :
  POLL_INTERVAL_MS * (Z.of_nat (polls (snd not_found_run)) - 1) <= timeoutSeconds (sample_args 30) * 1000.
Proof.
  apply (wait_poll_count_bound 20 (sample_env "h.eyJleHAiOjE3MDAwMDAwMDB9.s" 10
           (fun _ => Fetched (mkResponse 404 "Not Found" EmptyString (inl "x"))))
           (mkTokenWithExpiry "t0" (10 ^ 15)) (sample_args 30) 0 (fst not_found_run)).
  - intros i r. simpl. lia.
  - intros i r. simpl. lia.
  - simpl. lia.
  - vm_compute. reflexivity.
Defined.

Section PollBound2.

Variable env : Env.
Variable a : WaitArgs.
Variable token : string.
Variable startTime : Z.
Hypothesis service_latency : forall i r, 0 <= fst (service env i r).

Definition spaced2 (s : Revision2.St2) : Prop :=
  POLL_INTERVAL_MS * Z.of_nat (Revision2.polls2 s) <= Revision2.now2 s - startTime.
Definition bounded2 (s : Revision2.St2) : Prop :=
  POLL_INTERVAL_MS * (Z.of_nat (Revision2.polls2 s) - 1) <= timeoutSeconds a * 1000.

Lemma loop_body2_bound (s : Revision2.St2) :
  spaced2 s -> bounded2 s ->
  match Revision2.loop_body env a token startTime s with
  | Revision2.Stop2 _ s' => bounded2 s'
  | Revision2.Loop2 s' => spaced2 s' /\ bounded2 s'
  end.
Proof.
  unfold spaced2, bounded2. intros Hsp Hbd.
  unfold Revision2.loop_body.
  destruct (Revision2.now2 s - startTime >? timeoutSeconds a * 1000) eqn:Ht; [exact Hbd|].
  rewrite Z.gtb_ltb, Z.ltb_ge in Ht.
  match goal with |- context [service ?e ?i ?q] =>
    pose proof (service_latency i q); destruct (service e i q) as [lat out] end.
  cbn [fst] in *.
  destruct (Revision2.pollDeploymentStatus out);
    cbn [Revision2.now2 Revision2.polls2]; rewrite ?Nat2Z.inj_succ;
    unfold POLL_INTERVAL_MS in *; try split; lia.
Qed.

Lemma wait_loop2_bound fuel (s : Revision2.St2) o s' :
  spaced2 s -> bounded2 s -> Revision2.wait_loop fuel env a token startTime s = (o, s') ->
  bounded2 s'.
Proof.
  revert s. induction fuel as [|f IH]; intros s Hsp Hbd H; simpl in H.
  - injection H as _ <-. exact Hbd.
  - pose proof (loop_body2_bound s Hsp Hbd) as Hb.
    destruct (Revision2.loop_body env a token startTime s) as [o' s1 | s1].
    + injection H as _ <-. exact Hb.
    + exact (IH s1 (proj1 Hb) (proj2 Hb) H).
Qed.

End PollBound2.

(** X6: the same bound for the second revision's wait: with non-negative
    request times and a non-negative timeout, it sends at most
    [timeoutSeconds / 5 + 1] status requests. *)
Theorem wait2_poll_count_bound fuel env token a startTime o s' :
  (forall i r, 0 <= fst (service env i r)) ->
  0 <= timeoutSeconds a ->
  Revision2.waitForVercelDeployment fuel env token a startTime = (o, s') ->
  POLL_INTERVAL_MS * (Z.of_nat (Revision2.polls2 s') - 1) <= timeoutSeconds a * 1000.
Proof.
  intros Hs Ht H.
  apply (wait_loop2_bound env a token startTime Hs fuel (Revision2.mkSt2 startTime 0 []) o s');
    [| | exact H]; unfold spaced2, bounded2, POLL_INTERVAL_MS;
    cbn [Revision2.now2 Revision2.polls2 Z.of_nat]; lia.
Qed.

Definition not_found_run2 : WaitOutcome * Revision2.St2 :=
  Revision2.waitForVercelDeployment 20 (sample_env "h.eyJleHAiOjE3MDAwMDAwMDB9.s" 10
      (fun _ => Fetched (mkResponse 503 "Service Unavailable" EmptyString (inl "x"))))
    "t0" (sample_args 30) 0.

Lemma wait2_poll_count_bound_witness :
  POLL_INTERVAL_MS * (Z.of_nat (Revision2.polls2 (snd not_found_run2)) - 1)
    <= timeoutSeconds (sample_args 30) * 1000.
Proof.
  apply (wait2_poll_count_bound 20 (sample_env "h.eyJleHAiOjE3MDAwMDAwMDB9.s" 10
           (fun _ => Fetched (mkResponse 503 "Service Unavailable" EmptyString (inl "x"))))
           "t0" (sample_args 30) 0 (fst not_found_run2)).
  - intros i r. simpl. lia.
  - simpl. lia.
  - vm_compute. reflexivity.
Defined.

(** The token in force after a trace: the last one refreshed, or [cur]. *)
Fixpoint latest_token (cur : TokenWithExpiry) (tr : list PollEvent) : TokenWithExpiry :=
  match tr with
  | [] => cur
  | ERefresh t :: r => latest_token t r
  | _ :: r => latest_token cur r
  end.

(** Every status request of the trace is the one built from the arguments
    and the token in force when it is sent. *)
Fixpoint requests_follow (a : WaitArgs) (cur : TokenWithExpiry) (tr : list PollEvent) : Prop :=
  match tr with
  | [] => True
  | ERefresh t :: r => requests_follow a t r
  | EPoll req _ :: r => req = status_request a (token cur) /\ requests_follow a cur r
  | ESleep :: r => requests_follow a cur r
  end.

Lemma latest_token_snoc cur tr e :
  latest_token cur (tr ++ [e]) =
  match e with ERefresh t => t | _ => latest_token cur tr end.
Proof.
  revert cur. induction tr as [|e' tr IH]; intros cur; [destruct e; reflexivity|].
  destruct e'; simpl; apply IH.
Qed.

Lemma requests_follow_snoc a cur tr e :
  requests_follow a cur tr ->
  match e with
  | EPoll req _ => req = status_request a (token (latest_token cur tr))
  | _ => True
  end ->
  requests_follow a cur (tr ++ [e]).
Proof.
  revert cur. induction tr as [|e' tr IH]; intros cur H He.
  - destruct e; simpl; auto.
  - destruct e'; simpl in *; try (destruct H; split); auto.
Qed.

Definition token_inv (a : WaitArgs) (init : TokenWithExpiry) (s : St) : Prop :=
  currentToken s = latest_token init (trace s) /\ requests_follow a init (trace s).

Lemma getValidToken_inv env a init s r s1 :
  token_inv a init s -> getValidToken env s = (r, s1) ->
  match r with
  | inr t => latest_token init (trace s1) = t /\ requests_follow a init (trace s1)
  | inl _ => token_inv a init s1
  end.
Proof.
  unfold token_inv, getValidToken. intros [Hc Hf] H.
  destruct (shouldRefreshToken (currentToken s) (now s)).
  - destruct (createTokenWithExpiry env s) as [[e | t] s'] eqn:Hcr;
      destruct (createTokenWithExpiry_state _ _ _ _ Hcr) as (_ & Htr & Hct);
      injection H as <- <-.
    + rewrite Htr, Hct. auto.
    + cbn [trace log]. rewrite latest_token_snoc, Htr. split; [reflexivity|].
      apply requests_follow_snoc; [exact Hf | exact I].
  - injection H as <- <-. auto.
Qed.

Lemma loop_body_token_inv env a init startTime s :
  token_inv a init s ->
  token_inv a init (step_state (loop_body env a startTime s)).
Proof.
  intros Hi. unfold loop_body.
  destruct (now s - startTime >? timeoutSeconds a * 1000); [exact Hi|].
  destruct (getValidToken env s) as [[e | t] s1] eqn:Hv;
    pose proof (getValidToken_inv env a init s _ s1 Hi Hv) as Hs1; [exact Hs1|].
  destruct Hs1 as [Hl Hf].
  match goal with |- context [service ?e ?i ?q] => destruct (service e i q) as [lat out] end.
  assert (H3 : token_inv a init
    (log (EPoll (status_request a (token t)) (pollDeploymentStatus out))
         (advance lat (count_poll (set_token t s1))))).
  { unfold token_inv. cbn [trace currentToken log advance count_poll set_token].
    rewrite latest_token_snoc. split; [symmetry; exact Hl|].
    apply requests_follow_snoc; [exact Hf | rewrite Hl; reflexivity]. }
  destruct (pollDeploymentStatus out); cbn [step_state]; try exact H3.
  destruct H3 as [H3c H3f]. unfold token_inv.
  cbn [trace currentToken log advance] in *. rewrite latest_token_snoc.
  split; [exact H3c|]. apply requests_follow_snoc; [exact H3f | exact I].
Qed.

Lemma wait_loop_token_inv fuel env a init startTime s o s' :
  token_inv a init s -> wait_loop fuel env a startTime s = (o, s') -> token_inv a init s'.
Proof.
  revert s. induction fuel as [|f IH]; intros s Hi H; simpl in H.
  - injection H as _ <-. exact Hi.
  - pose proof (loop_body_token_inv env a init startTime s Hi) as Hb.
    destruct (loop_body env a startTime s) as [o' s1 | s1].
    + injection H as _ <-. exact Hb.
    + exact (IH s1 Hb H).
Qed.

(** X7: in the first revision's wait, every status request goes to
    [apiUrl] with the given SHA, job and project, and is authorized with the
    token in force when it is sent: the initial token until the first
    refresh, then the most recently refreshed one; at the end the
    [currentToken] binding is the last token refreshed, or the initial one. *)
Theorem wait_requests_use_latest_token fuel env initialToken a startTime o s' :
  waitForVercelDeployment fuel env initialToken a startTime = (o, s') ->
  requests_follow a initialToken (trace s') /\
  currentToken s' = latest_token initialToken (trace s').
Proof.
  intros H.
  assert (Hi : token_inv a initialToken (mkSt startTime initialToken 0 0 []))
    by (split; [reflexivity | exact I]).
  destruct (wait_loop_token_inv _ _ _ _ _ _ _ _ Hi H) as [Hc Hf]. auto.
Qed.

Definition refresh_run : WaitOutcome * St :=
  waitForVercelDeployment 10 (sample_env "h.eyJleHAiOjE3MDAwMDAwMDB9.s" 10 building_then_ready)
    (mkTokenWithExpiry "old" 20000) (sample_args 20) 0.

Lemma wait_requests_use_latest_token_witness :
  requests_follow (sample_args 20) (mkTokenWithExpiry "old" 20000) (trace (snd refresh_run)) /\
  currentToken (snd refresh_run) = latest_token (mkTokenWithExpiry "old" 20000) (trace (snd refresh_run)).
Proof.
  apply (wait_requests_use_latest_token 10
           (sample_env "h.eyJleHAiOjE3MDAwMDAwMDB9.s" 10 building_then_ready)
           (mkTokenWithExpiry "old" 20000) (sample_args 20) 0 (fst refresh_run)).
  vm_compute. reflexivity.
Defined.

(** X8: the second revision's wait never refreshes its token: every event
    of its trace is a sleep or a status request to [apiUrl] with the given
    SHA, job and project, authorized with the token it was given. *)
Theorem wait2_requests_use_fixed_token fuel env token a startTime o s' :
  Revision2.waitForVercelDeployment fuel env token a startTime = (o, s') ->
  Forall (fun e => e = ESleep \/ exists r, e = EPoll (status_request a token) r)
         (Revision2.trace2 s').
Proof.
  unfold Revision2.waitForVercelDeployment.
  assert (Hgen : forall f s, Forall (fun e => e = ESleep \/ exists r, e = EPoll (status_request a token) r)
                               (Revision2.trace2 s) ->
            Revision2.wait_loop f env a token startTime s = (o, s') ->
            Forall (fun e => e = ESleep \/ exists r, e = EPoll (status_request a token) r)
                   (Revision2.trace2 s')).
  { induction f as [|f IH]; intros s Hs H; simpl in H.
    - injection H as _ <-. exact Hs.
    - unfold Revision2.loop_body in H.
      destruct (Revision2.now2 s - startTime >? timeoutSeconds a * 1000).
      + injection H as _ <-. exact Hs.
      + match type of H with context [service ?e ?i ?q] =>
          destruct (service e i q) as [lat out] end.
        assert (Hp : Forall (fun e => e = ESleep \/ exists r, e = EPoll (status_request a token) r)
                       (Revision2.trace2 s ++ [EPoll (status_request a token)
                                                 (Revision2.pollDeploymentStatus out)])%list).
        { apply Forall_app. split; [exact Hs|]. constructor; [right; eauto | constructor]. }
        destruct (Revision2.pollDeploymentStatus out);
          try (injection H as _ <-; exact Hp).
        refine (IH _ _ H). cbn [Revision2.trace2]. apply Forall_app.
        split; [exact Hp | constructor; [left; reflexivity | constructor]]. }
  apply Hgen. constructor.
Qed.

Lemma wait2_requests_use_fixed_token_witness :
  Forall (fun e => e = ESleep \/ exists r, e = EPoll (status_request (sample_args 30) "t0") r)
         (Revision2.trace2 (snd not_found_run2)).
Proof.
  apply (wait2_requests_use_fixed_token 20 (sample_env "h.eyJleHAiOjE3MDAwMDAwMDB9.s" 10
           (fun _ => Fetched (mkResponse 503 "Service Unavailable" EmptyString (inl "x"))))
           "t0" (sample_args 30) 0 (fst not_found_run2)).
  vm_compute. reflexivity.
Defined.

(** X9: once a token is due for a refresh it stays due: [shouldRefreshToken]
    is monotone in the current time. *)
Theorem shouldRefreshToken_monotone (t : TokenWithExpiry) (now1 now2 : Z) :
  now1 <= now2 -> shouldRefreshToken t now1 = true -> shouldRefreshToken t now2 = true.
Proof.
  unfold shouldRefreshToken, REFRESH_BUFFER_MS. intros Hle H.
  apply Qle_bool_iff in H. apply Qle_bool_iff.
  rewrite Zle_Qle in Hle.
  apply (Qle_trans _ (expiresAt t - inject_Z now1)); [|exact H].
  apply Qplus_le_r. apply Qopp_le_compat. exact Hle.
Qed.

Lemma shouldRefreshToken_monotone_witness :
  shouldRefreshToken (mkTokenWithExpiry "t" 50000) 30000 = true.
Proof.
  apply (shouldRefreshToken_monotone (mkTokenWithExpiry "t" 50000) 20000 30000).
  - lia.
  - vm_compute. reflexivity.
Defined.

(** X10: [createTokenWithExpiry] makes no request and throws the
    permission message when the request URL or the request token is
    missing or empty; otherwise it sends exactly one request, to
    [tokenRequestUrl&audience=https%3A%2F%2Fendform.dev] with the request
    token, and the clock advances by its duration; a token it returns is
    the [value] of a 2xx answer, its [expiresAt] is the finite number
    [getTokenExpiry] returns for that value, and lies within
    [-8.64e15 .. 8.64e15]; when [getTokenExpiry] returns a value outside
    that range or not finite, it throws the [RangeError] of line 292. *)
Theorem createTokenWithExpiry_request env s :
  (truthy_str (ACTIONS_ID_TOKEN_REQUEST_URL env) = false \/
   truthy_str (ACTIONS_ID_TOKEN_REQUEST_TOKEN env) = false ->
   createTokenWithExpiry env s = (inl OidcNotConfigured, s)) /\
  (forall u t, ACTIONS_ID_TOKEN_REQUEST_URL env = Some u ->
     ACTIONS_ID_TOKEN_REQUEST_TOKEN env = Some t -> u <> EmptyString -> t <> EmptyString ->
     snd (createTokenWithExpiry env s) =
     mkSt (now s + fst (broker env (acquires s)
                          (mkBrokerRequest (u ++ "&audience=https%3A%2F%2Fendform.dev") t)))
          (currentToken s) (polls s) (S (acquires s)) (trace s)) /\
  (forall tw s1, createTokenWithExpiry env s = (inr tw, s1) ->
     getTokenExpiry (token tw) = inr (DFinite (expiresAt tw)) /\
     (- inject_Z MAX_TIME_MS <= expiresAt tw <= inject_Z MAX_TIME_MS)%Q /\
     exists u t lat st stt,
       ACTIONS_ID_TOKEN_REQUEST_URL env = Some u /\ ACTIONS_ID_TOKEN_REQUEST_TOKEN env = Some t /\
       broker env (acquires s) (mkBrokerRequest (oidc_url u) t) =
         (lat, BrokerResponse st stt (inr (Some (token tw)))) /\ ok st = true) /\
  (forall u t lat st stt v x,
     ACTIONS_ID_TOKEN_REQUEST_URL env = Some u ->
     ACTIONS_ID_TOKEN_REQUEST_TOKEN env = Some t -> u <> EmptyString -> t <> EmptyString ->
     broker env (acquires s) (mkBrokerRequest (oidc_url u) t) =
       (lat, BrokerResponse st stt (inr (Some v))) -> ok st = true -> v <> EmptyString ->
     getTokenExpiry v = inr x -> valid_time x = None ->
     fst (createTokenWithExpiry env s) = inl InvalidTimeValue).
Proof.
  unfold createTokenWithExpiry. split; [|split; [|split]].
  - intros [H | H]; rewrite H; [reflexivity|]. rewrite orb_true_r. reflexivity.
  - intros u t Hu Ht Hu0 Ht0. rewrite Hu, Ht.
    destruct u as [|cu u]; [contradiction|]. destruct t as [|ct t]; [contradiction|].
    cbn [negb truthy_str orb].
    destruct (broker env (acquires s) _) as [lat out]. reflexivity.
  - intros tw s1 H.
    destruct (ACTIONS_ID_TOKEN_REQUEST_URL env) as [[|cu u]|] eqn:Hu; try discriminate.
    destruct (ACTIONS_ID_TOKEN_REQUEST_TOKEN env) as [[|ct t]|] eqn:Ht; try discriminate.
    cbn [negb truthy_str orb] in H.
    destruct (broker env (acquires s) _) as [lat out] eqn:Hb.
    destruct out as [m | st stt [m | ov]]; [discriminate | |].
    all: destruct (ok st) eqn:Hok; cbn [negb] in H; try discriminate.
    destruct ov as [[|cv v]|]; cbn [truthy_str negb] in H; try discriminate.
    destruct (getTokenExpiry (String cv v)) as [e | x] eqn:Hx; try discriminate.
    destruct x as [q | neg |]; cbn [valid_time] in H; try discriminate.
    destruct (Qle_bool (- inject_Z MAX_TIME_MS) q && Qle_bool q (inject_Z MAX_TIME_MS))
      eqn:Hr; try discriminate.
    injection H as <- _. apply andb_true_iff in Hr. destruct Hr as [Hlo Hhi].
    split; [exact Hx|]. split; [split; apply Qle_bool_iff; assumption|].
    exists (String cu u), (String ct t), lat, st, stt. auto.
  - intros u t lat st stt v x Hu Ht Hu0 Ht0 Hb Hok Hv Hx Hvt. rewrite Hu, Ht.
    destruct u as [|cu u]; [contradiction|]. destruct t as [|ct t]; [contradiction|].
    destruct v as [|cv v]; [contradiction|].
    cbn [negb truthy_str orb]. rewrite Hb. cbn [fst]. rewrite Hok.
    cbn [negb truthy_str]. rewrite Hx, Hvt. reflexivity.
Qed.

Definition broker_env : Env :=
  sample_env "h.eyJleHAiOjE3MDAwMDAwMDB9.s" 10 (fun _ => FetchFailed "x").

Lemma createTokenWithExpiry_request_witness :
  snd (createTokenWithExpiry broker_env fresh_state) =
  mkSt (now fresh_state + fst (broker broker_env (acquires fresh_state)
          (mkBrokerRequest ("https://broker?x=1" ++ "&audience=https%3A%2F%2Fendform.dev") "ambient")))
       (currentToken fresh_state) (polls fresh_state) (S (acquires fresh_state)) (trace fresh_state) /\
  fst (createTokenWithExpiry late_token_env fresh_state) = inl InvalidTimeValue.
Proof.
  split.
  - apply (proj1 (proj2 (createTokenWithExpiry_request broker_env fresh_state))
             "https://broker?x=1" "ambient"); try reflexivity; discriminate.
  - apply (proj2 (proj2 (proj2 (createTokenWithExpiry_request late_token_env fresh_state)))
             "https://broker?x=1" "ambient" 100 200 "OK" "h.eyJleHAiOjkwMDAwMDAwMDAwMDB9.s"
             (DFinite 9000000000000000)); try reflexivity; discriminate.
Defined.

Module RegisterProofs.
Import RegisterVercelCheck.

Definition REGISTER_PATH : string := "/api/integrations/v1/actions/register-vercel-check".

Lemma getOIDCToken_inr env tok l1 :
  getOIDCToken env = (inr tok, l1) ->
  exists u t st stt,
    ACTIONS_ID_TOKEN_REQUEST_URL env = Some u /\ ACTIONS_ID_TOKEN_REQUEST_TOKEN env = Some t /\
    l1 = [RBroker (mkBrokerRequest (oidc_url u) t)] /\
    broker env (mkBrokerRequest (oidc_url u) t) = BrokerResponse st stt (inr (Some tok)) /\
    ok st = true /\ tok <> EmptyString.
Proof.
  unfold getOIDCToken. intros H.
  destruct (ACTIONS_ID_TOKEN_REQUEST_URL env) as [[|cu u]|] eqn:Hu;
    cbn [truthy_str negb orb] in H; try discriminate.
  destruct (ACTIONS_ID_TOKEN_REQUEST_TOKEN env) as [[|ct t]|] eqn:Ht;
    cbn [truthy_str negb orb] in H; try discriminate.
  destruct (broker env _) as [m | st stt [m | ov]] eqn:Hb; try discriminate.
  all: destruct (ok st) eqn:Hok; cbn [negb] in H; try discriminate.
  destruct ov as [[|cv v]|]; cbn [truthy_str negb] in H; try discriminate.
  injection H as <- <-.
  exists (String cu u), (String ct t), st, stt. repeat split; auto. discriminate.
Qed.

Lemma getOIDCToken_requests env r l1 :
  getOIDCToken env = (r, l1) -> l1 = [] \/ exists b, l1 = [RBroker b].
Proof.
  unfold getOIDCToken. intros H.
  destruct (negb (truthy_str (ACTIONS_ID_TOKEN_REQUEST_URL env)) ||
            negb (truthy_str (ACTIONS_ID_TOKEN_REQUEST_TOKEN env)));
    injection H as _ <-; eauto.
Qed.

Lemma registerCheck_cases env tok url r l2 :
  registerCheck env tok url = (r, l2) ->
  (l2 = [] /\ r = inl "GITHUB_SHA environment variable is not set") \/
  exists sha, GITHUB_SHA env = Some sha /\ sha <> EmptyString /\
    l2 = [RRegister (mkRegisterRequest (url ++ REGISTER_PATH) ("Bearer " ++ tok) sha)] /\
    (r = inr tt -> exists st stt text,
       api env (mkRegisterRequest (url ++ REGISTER_PATH) ("Bearer " ++ tok) sha)
         = RegResponse st stt text /\ ok st = true).
Proof.
  unfold registerCheck. intros H.
  destruct (GITHUB_SHA env) as [[|c sha]|] eqn:Hs; cbn [truthy_str negb] in H.
  - injection H as <- <-. auto.
  - right. exists (String c sha). split; [reflexivity | split; [discriminate|]].
    injection H as <- <-. split; [reflexivity|].
    intros Hr. unfold REGISTER_PATH.
    destruct (api env _) as [m | st stt text]; [discriminate|].
    destruct (ok st) eqn:Hok; [|discriminate]. eauto.
  - injection H as <- <-. auto.
Qed.

(** X11: [registerCheck] without a (non-empty) [GITHUB_SHA] throws
    [GITHUB_SHA environment variable is not set] and sends no request. *)
Theorem registerCheck_no_sha env tok url :
  truthy_str (GITHUB_SHA env) = false ->
  registerCheck env tok url = (inl "GITHUB_SHA environment variable is not set", []).
Proof.
  unfold registerCheck. intros H.
  destruct (GITHUB_SHA env) as [[|c sha]|]; try discriminate; reflexivity.
Qed.

Lemma registerCheck_no_sha_witness :
  registerCheck (mkRegEnv None (Some EmptyString) None None
                   (fun _ => BrokerFailed "x") (fun _ => RegResponse 200 "OK" EmptyString))
                "tok" DEFAULT_ENDFORM_URL
  = (inl "GITHUB_SHA environment variable is not set", []).
Proof.
  apply registerCheck_no_sha. reflexivity.
Defined.

(** X12: with a non-empty [GITHUB_SHA], [registerCheck] sends exactly one
    request, to [endformUrl/api/integrations/v1/actions/register-vercel-check]
    with the bearer token and the SHA; it succeeds exactly when the answer
    is a 2xx response, and a non-2xx answer makes it throw a message that
    contains the status code and the response body. *)
Theorem registerCheck_request env tok url sha :
  GITHUB_SHA env = Some sha -> sha <> EmptyString ->
  let req := mkRegisterRequest (url ++ REGISTER_PATH) ("Bearer " ++ tok) sha in
  snd (registerCheck env tok url) = [RRegister req] /\
  (fst (registerCheck env tok url) = inr tt <->
   exists st stt text, api env req = RegResponse st stt text /\ ok st = true) /\
  (forall st stt text, api env req = RegResponse st stt text -> ok st = false ->
   exists m, fst (registerCheck env tok url) = inl m /\
             contains m (Z_to_string st) /\ contains m text).
Proof.
  intros Hs Hne req. unfold registerCheck. rewrite Hs.
  destruct sha as [|c sha]; [contradiction|]. cbn [truthy_str negb].
  fold REGISTER_PATH. fold req.
  split; [reflexivity | split].
  - destruct (api env req) as [m | st stt text] eqn:Ha; simpl.
    + split; [discriminate|]. intros (st & stt & text & H & _). discriminate.
    + destruct (ok st) eqn:Hok; simpl.
      * split; [eauto | reflexivity].
      * split; [discriminate|]. intros (st' & stt' & text' & H & Hok').
        injection H as -> _ _. congruence.
  - intros st stt text Ha Hok. rewrite Ha, Hok. simpl.
    eexists; split; [reflexivity|].
    exact (contains_http_message "Failed to register check: " stt st text).
Qed.

Lemma registerCheck_request_witness :
  let req := mkRegisterRequest (DEFAULT_ENDFORM_URL ++ REGISTER_PATH) ("Bearer " ++ "tok") "abc123" in
  let env := mkRegEnv None (Some "abc123") None None (fun _ => BrokerFailed "x")
                      (fun _ => RegResponse 422 "Unprocessable Entity" "unknown sha") in
  snd (registerCheck env "tok" DEFAULT_ENDFORM_URL) = [RRegister req] /\
  (fst (registerCheck env "tok" DEFAULT_ENDFORM_URL) = inr tt <->
   exists st stt text, api env req = RegResponse st stt text /\ ok st = true) /\
  (forall st stt text, api env req = RegResponse st stt text -> ok st = false ->
   exists m, fst (registerCheck env "tok" DEFAULT_ENDFORM_URL) = inl m /\
             contains m (Z_to_string st) /\ contains m text).
Proof.
  apply (registerCheck_request
           (mkRegEnv None (Some "abc123") None None (fun _ => BrokerFailed "x")
                     (fun _ => RegResponse 422 "Unprocessable Entity" "unknown sha"))
           "tok" DEFAULT_ENDFORM_URL "abc123"); [reflexivity | discriminate].
Defined.

(** X13: the register action sends no request at all when OIDC is not
    configured; a registration request is sent only after the broker
    answered 2xx with a non-empty token, and it carries that token and goes
    to [ENDFORM_URL] (when set and non-empty, the default URL otherwise);
    the action reports [Check registered successfully] only when that
    request got a 2xx answer. *)
Theorem run_requests env :
  (truthy_str (ACTIONS_ID_TOKEN_REQUEST_URL env) = false \/
   truthy_str (ACTIONS_ID_TOKEN_REQUEST_TOKEN env) = false ->
   run env = (inl OIDC_PERMISSION_MESSAGE, [])) /\
  (forall res reqs r, run env = (res, reqs) -> In (RRegister r) reqs ->
   exists u t st stt v sha e,
     ACTIONS_ID_TOKEN_REQUEST_URL env = Some u /\ ACTIONS_ID_TOKEN_REQUEST_TOKEN env = Some t /\
     broker env (mkBrokerRequest (oidc_url u) t) = BrokerResponse st stt (inr (Some v)) /\
     ok st = true /\ v <> EmptyString /\
     GITHUB_SHA env = Some sha /\ sha <> EmptyString /\
     ((ENDFORM_URL env = Some e /\ e <> EmptyString) \/
      (truthy_str (ENDFORM_URL env) = false /\ e = DEFAULT_ENDFORM_URL)) /\
     r = mkRegisterRequest (e ++ REGISTER_PATH) ("Bearer " ++ v) sha /\
     reqs = [RBroker (mkBrokerRequest (oidc_url u) t); RRegister r]) /\
  (forall m reqs, run env = (inr m, reqs) ->
   m = "Check registered successfully" /\
   exists r st stt text, In (RRegister r) reqs /\ api env r = RegResponse st stt text /\ ok st = true).
Proof.
  split; [|split].
  - intros H. unfold run, getOIDCToken.
    destruct H as [H | H]; rewrite H; [reflexivity|]. rewrite orb_true_r. reflexivity.
  - intros res reqs r H Hin. unfold run in H.
    destruct (getOIDCToken env) as [[m | v] l1] eqn:Hg.
    + injection H as _ <-.
      destruct (getOIDCToken_requests _ _ _ Hg) as [-> | [b ->]]; simpl in Hin;
        [contradiction | destruct Hin as [Hin | []]; discriminate].
    + destruct (getOIDCToken_inr _ _ _ Hg) as (u & t & st & stt & Hu & Ht & Hl1 & Hb & Hok & Hv).
      set (e := match ENDFORM_URL env with
                | Some u => if truthy_str (Some u) then u else DEFAULT_ENDFORM_URL
                | None => DEFAULT_ENDFORM_URL
                end) in H.
      destruct (registerCheck env v e) as [r2 l2] eqn:Hr.
      injection H as _ <-. subst l1.
      destruct (registerCheck_cases _ _ _ _ _ Hr) as [[-> _] | (sha & Hs & Hne & -> & _)];
        simpl in Hin; [destruct Hin as [Hin | []]; discriminate|].
      destruct Hin as [Hin | [Hin | []]]; [discriminate|]. injection Hin as <-.
      exists u, t, st, stt, v, sha, e. repeat (split; [assumption|]).
      split; [|split; reflexivity].
      subst e. destruct (ENDFORM_URL env) as [[|c w]|]; cbn [truthy_str]; auto.
      left. split; [reflexivity | discriminate].
  - intros m reqs H. unfold run in H.
    destruct (getOIDCToken env) as [[m' | v] l1] eqn:Hg; [discriminate|].
    destruct (registerCheck env v _) as [[m2 | []] l2] eqn:Hr; [discriminate|].
    injection H as <- <-. split; [reflexivity|].
    destruct (registerCheck_cases _ _ _ _ _ Hr) as [[_ Habs] | (sha & Hs & Hne & -> & Hok)];
      [discriminate|].
    destruct (Hok eq_refl) as (st & stt & text & Ha & Hst).
    do 4 eexists. split; [apply in_or_app; right; left; reflexivity|]. eauto.
Qed.

Definition register_env : RegEnv :=
  mkRegEnv (Some "http://localhost:3000") (Some "abc123") (Some "https://broker?x=1") (Some "ambient")
           (fun _ => BrokerResponse 200 "OK" (inr (Some "jwt")))
           (fun _ => RegResponse 200 "OK" EmptyString).

Lemma run_requests_witness :
  "Check registered successfully" = "Check registered successfully" /\
  exists r st stt text, In (RRegister r) (snd (run register_env)) /\
    api register_env r = RegResponse st stt text /\ ok st = true.
Proof.
  apply (proj2 (proj2 (run_requests register_env)) "Check registered successfully").
  vm_compute. reflexivity.
Defined.

End RegisterProofs.

Module AwaitRunProofs.
Import AwaitRun.

Lemma createTokenWithExpiry_inr_acquires env s t s1 :
  createTokenWithExpiry env s = (inr t, s1) -> acquires s1 = S (acquires s).
Proof.
  unfold createTokenWithExpiry. intros H.
  destruct (negb (truthy_str (ACTIONS_ID_TOKEN_REQUEST_URL env)) ||
            negb (truthy_str (ACTIONS_ID_TOKEN_REQUEST_TOKEN env))); [discriminate|].
  destruct (broker env (acquires s) _) as [lat out].
  injection H as _ <-. reflexivity.
Qed.

Lemma or_null_none (x : string) : or_null x = None <-> x = EmptyString.
Proof.
  unfold or_null. destruct (String.eqb x EmptyString) eqn:E.
  - apply String.eqb_eq in E. split; auto.
  - apply String.eqb_neq in E. split; [discriminate | intros; contradiction].
Qed.

(** X14: the await action's [run] reads [set-url-env-var] first (a missing
    value throws before anything is sent) and then acquires the OIDC token
    before it checks any other input: without OIDC configuration it fails
    with the permission error whatever the inputs are, and each of the
    input and environment errors (no project, bad timeout, no SHA, no job)
    is reported only after a token was obtained from the broker. *)
Theorem run_prepare_acquires_first renv inputs s :
  (in_set_url_env_var inputs = None ->
   run_prepare renv inputs s = (inl (InputRequired "set-url-env-var"), s)) /\
  (in_set_url_env_var inputs <> None ->
   truthy_str (ACTIONS_ID_TOKEN_REQUEST_URL (action_env renv)) = false \/
   truthy_str (ACTIONS_ID_TOKEN_REQUEST_TOKEN (action_env renv)) = false ->
   run_prepare renv inputs s = (inl (AcquireFailed OidcNotConfigured), s)) /\
  (forall e s1, run_prepare renv inputs s = (inl e, s1) ->
   e = NoProject \/ e = BadTimeout \/ e = NoSha \/ e = NoJob ->
   exists t, createTokenWithExpiry (action_env renv) s = (inr t, s1) /\
             acquires s1 = S (acquires s)).
Proof.
  unfold run_prepare. split; [|split].
  - intros H. rewrite H. reflexivity.
  - intros Hs Hn. destruct (in_set_url_env_var inputs) as [u|]; [|contradiction].
    assert (Hc : createTokenWithExpiry (action_env renv) s = (inl OidcNotConfigured, s)).
    { unfold createTokenWithExpiry.
      destruct Hn as [Hn | Hn]; rewrite Hn; [reflexivity|]. rewrite orb_true_r. reflexivity. }
    cbn zeta. rewrite Hc. reflexivity.
  - intros e s1 H He. cbn zeta in H.
    destruct (in_set_url_env_var inputs) as [u|]; [|injection H as <- _; intuition discriminate].
    destruct (createTokenWithExpiry (action_env renv) s) as [[e' | t] s2] eqn:Hc;
      [injection H as <- _; intuition discriminate|].
    assert (Hs2 : s1 = s2).
    { split_ifs_in H; repeat (match type of H with
                              | context [match ?x with _ => _ end] =>
                                lazymatch x with
                                | Some _ => fail | None => fail | _ => destruct x
                                end
                              end; cbn iota in H; split_ifs_in H);
      injection H as _ <-; reflexivity. }
    subst s2. exists t. split; [reflexivity|].
    exact (createTokenWithExpiry_inr_acquires _ _ _ _ Hc).
Qed.

Definition no_oidc_renv : RunEnv :=
  mkRunEnv (mkEnv None None (fun _ _ => (0, BrokerFailed "x")) (fun _ _ => (0, FetchFailed "x")))
           None (Some "abc123") (Some "push") None (Some "test") (fun _ => None).

Lemma run_prepare_acquires_first_witness :
  run_prepare no_oidc_renv (mkInputs EmptyString EmptyString (Some "URL") "-5") fresh_state
  = (inl (AcquireFailed OidcNotConfigured), fresh_state).
Proof.
  apply (proj1 (proj2 (run_prepare_acquires_first no_oidc_renv
                         (mkInputs EmptyString EmptyString (Some "URL") "-5") fresh_state))).
  - discriminate.
  - left. reflexivity.
Defined.

(** X15: when the await action's [run] gets as far as the wait, what it
    hands over is checked: the token is the one just acquired, the timeout
    is the result of [Number.parseInt] of the input (600 when the input is
    empty), a number that is neither [NaN] nor [<= 0] (a positive finite
    number or [Infinity]), at least one of the project name and id is
    non-null (each is the input, or null when the input is empty), the SHA
    is the resolved one and truthy, and the job name is the non-empty
    [GITHUB_JOB]. *)
Theorem run_prepare_ok renv inputs s p s1 :
  run_prepare renv inputs s = (inr p, s1) ->
  createTokenWithExpiry (action_env renv) s = (inr (p_token p), s1) /\
  disNaN (p_timeoutSeconds p) = false /\ dle0 (p_timeoutSeconds p) = false /\
  ((exists q, p_timeoutSeconds p = DFinite q /\ (0 < q)%Q) \/
   p_timeoutSeconds p = DInfinity false) /\
  parseInt10 (if String.eqb (in_timeout_seconds inputs) EmptyString then "600"
              else in_timeout_seconds inputs) = p_timeoutSeconds p /\
  (in_timeout_seconds inputs = EmptyString ->
   p_timeoutSeconds p = DFinite (inject_Z DEFAULT_TIMEOUT_SECONDS)) /\
  p_projectName p = or_null (in_project_name inputs) /\
  p_projectId p = or_null (in_project_id inputs) /\
  (p_projectName p <> None \/ p_projectId p <> None) /\
  p_sha p = resolveSha renv /\ sha_truthy (p_sha p) = true /\
  GITHUB_JOB renv = Some (p_jobName p) /\ p_jobName p <> EmptyString /\
  in_set_url_env_var inputs = Some (p_setUrlEnvVar p).
Proof.
  unfold run_prepare. cbn zeta. intros H.
  remember (parseInt10 (if String.eqb (in_timeout_seconds inputs) EmptyString then "600"
                        else in_timeout_seconds inputs)) as ts eqn:Hts.
  destruct (in_set_url_env_var inputs) as [u|] eqn:Hset; [|discriminate].
  destruct (createTokenWithExpiry (action_env renv) s) as [[e | t] s2] eqn:Hc; [discriminate|].
  destruct (String.eqb (in_project_name inputs) EmptyString &&
            String.eqb (in_project_id inputs) EmptyString) eqn:Hp; [discriminate|].
  destruct (disNaN ts || dle0 ts) eqn:Hn; [discriminate|].
  assert (Hpos : (exists q, ts = DFinite q /\ (0 < q)%Q) \/ ts = DInfinity false).
  { clear -Hn. destruct ts as [q | [|] |]; cbn [disNaN dle0 orb] in Hn; try discriminate;
      [left | right; reflexivity].
    exists q. split; [reflexivity|]. apply Qnot_le_lt. intros Hle.
    apply Qle_bool_iff in Hle. rewrite Hle in Hn. discriminate. }
  apply orb_false_iff in Hn. destruct Hn as [Hnan Hle0].
  destruct (sha_truthy (resolveSha renv)) eqn:Hsha; cbn [negb] in H; [|discriminate].
  destruct (GITHUB_JOB renv) as [[|c j]|] eqn:Hj; cbn [truthy_str] in H; try discriminate.
  injection H as <- <-. cbn [p_token p_timeoutSeconds p_projectName p_projectId p_sha
                              p_jobName p_setUrlEnvVar].
  split; [reflexivity|]. split; [exact Hnan|]. split; [exact Hle0|]. split; [exact Hpos|].
  split; [reflexivity|].
  split.
  { intros He. rewrite Hts, He. vm_compute. reflexivity. }
  split; [reflexivity|]. split; [reflexivity|].
  split.
  { apply andb_false_iff in Hp. destruct Hp as [Hp | Hp]; [left | right];
      intros Habs; apply or_null_none in Habs; apply String.eqb_neq in Hp; contradiction. }
  repeat (split; [first [reflexivity | assumption | discriminate]|]). reflexivity.
Qed.

Definition ok_renv : RunEnv :=
  mkRunEnv (sample_env "h.eyJleHAiOjE3MDAwMDAwMDB9.s" 10 (fun _ => FetchFailed "x"))
           None (Some "abc123") (Some "push") None (Some "test") (fun _ => None).

Definition ok_prepared : Prepared :=
  mkPrepared (mkTokenWithExpiry "h.eyJleHAiOjE3MDAwMDAwMDB9.s" (1700000000 * 1000))
             (ShaEnv (Some "abc123")) "test" (Some "web") None (DFinite 600)
             DEFAULT_ENDFORM_URL "URL".

Lemma run_prepare_ok_witness :
  createTokenWithExpiry (action_env ok_renv) fresh_state =
    (inr (p_token ok_prepared), snd (run_prepare ok_renv (mkInputs "web" EmptyString (Some "URL") EmptyString) fresh_state)).
Proof.
  apply (run_prepare_ok ok_renv (mkInputs "web" EmptyString (Some "URL") EmptyString) fresh_state
           ok_prepared (snd (run_prepare ok_renv (mkInputs "web" EmptyString (Some "URL") EmptyString) fresh_state))).
  vm_compute. reflexivity.
Defined.

(** X16: the SHA [run] waits for is [GITHUB_SHA] unless the event is a
    pull request ([pull_request] or [pull_request_target]) and the event
    payload at [GITHUB_EVENT_PATH] can be read and parsed and has a truthy
    [pull_request.head.sha], which then replaces it; a missing or empty
    [GITHUB_EVENT_PATH], a payload that cannot be read or parsed, lacks
    that field, or has a falsy one there ([""], [null], [0], [false]),
    silently keeps [GITHUB_SHA]. *)
Theorem resolveSha_cases renv :
  (forall n, GITHUB_EVENT_NAME renv = Some n -> n <> "pull_request" -> n <> "pull_request_target" ->
   resolveSha renv = ShaEnv (GITHUB_SHA renv)) /\
  (GITHUB_EVENT_NAME renv = None -> resolveSha renv = ShaEnv (GITHUB_SHA renv)) /\
  (truthy_str (GITHUB_EVENT_PATH renv) = false -> resolveSha renv = ShaEnv (GITHUB_SHA renv)) /\
  (forall n p, GITHUB_EVENT_NAME renv = Some n -> (n = "pull_request" \/ n = "pull_request_target") ->
   GITHUB_EVENT_PATH renv = Some p -> p <> EmptyString ->
   match read_file renv p with
   | None => resolveSha renv = ShaEnv (GITHUB_SHA renv)
   | Some bytes =>
     match json_parse (bytes_to_js_string bytes) with
     | None => resolveSha renv = ShaEnv (GITHUB_SHA renv)
     | Some ev =>
       match head_sha ev with
       | Some (Val j) =>
         resolveSha renv = if truthy (Val j) then ShaEvent j else ShaEnv (GITHUB_SHA renv)
       | _ => resolveSha renv = ShaEnv (GITHUB_SHA renv)
       end
     end
   end) /\
  (forall j, resolveSha renv = ShaEvent j -> truthy (Val j) = true).
Proof.
  unfold resolveSha. split; [|split; [|split; [|split]]].
  - intros n Hn H1 H2. rewrite Hn.
    apply String.eqb_neq in H1. apply String.eqb_neq in H2. rewrite H1, H2. reflexivity.
  - intros Hn. rewrite Hn. reflexivity.
  - intros Hp. destruct (GITHUB_EVENT_NAME renv); [|reflexivity].
    destruct (_ || _)%bool; [|reflexivity].
    destruct (GITHUB_EVENT_PATH renv) as [p|]; [|reflexivity].
    rewrite Hp. reflexivity.
  - intros n p Hn Hpr Hp Hne. rewrite Hn, Hp.
    assert (Hb : (String.eqb n "pull_request" || String.eqb n "pull_request_target")%bool = true).
    { destruct Hpr as [-> | ->]; reflexivity. }
    rewrite Hb.
    destruct p as [|c p']; [contradiction|]. cbn [truthy_str].
    destruct (read_file renv (String c p')) as [bytes|]; [|reflexivity].
    destruct (json_parse (bytes_to_js_string bytes)) as [ev|]; [|reflexivity].
    destruct (head_sha ev) as [[|j]|]; reflexivity.
  - intros j.
    destruct (GITHUB_EVENT_NAME renv); [|discriminate].
    destruct (_ || _)%bool; [|discriminate].
    destruct (GITHUB_EVENT_PATH renv) as [p|]; [|discriminate].
    destruct (truthy_str (Some p)); [|discriminate].
    destruct (read_file renv p) as [bytes|]; [|discriminate].
    destruct (json_parse (bytes_to_js_string bytes)) as [ev|]; [|discriminate].
    destruct (head_sha ev) as [[|j']|]; try discriminate.
    destruct (truthy (Val j')) eqn:Ht; [|discriminate].
    intros H. injection H as <-. exact Ht.
Qed.

(** A pull request event whose payload names the head commit [deadbeef]. *)
Definition pr_renv : RunEnv :=
  mkRunEnv (sample_env "h.eyJleHAiOjE3MDAwMDAwMDB9.s" 10 (fun _ => FetchFailed "x"))
           None (Some "merge0") (Some "pull_request") (Some "/github/workflow/event.json") (Some "test")
           (fun _ => Some (jcodes "{'action':'opened','pull_request':{'head':{'sha':'deadbeef'}}}")).

(** The same event whose payload has an empty head SHA. *)
Definition pr_empty_renv : RunEnv :=
  mkRunEnv (sample_env "h.eyJleHAiOjE3MDAwMDAwMDB9.s" 10 (fun _ => FetchFailed "x"))
           None (Some "merge0") (Some "pull_request") (Some "/github/workflow/event.json") (Some "test")
           (fun _ => Some (jcodes "{'action':'opened','pull_request':{'head':{'sha':''}}}")).

Lemma resolveSha_cases_witness :
  resolveSha pr_renv = ShaEvent (JStr (codes "deadbeef")) /\
  resolveSha pr_empty_renv = ShaEnv (Some "merge0").
Proof.
  split.
  - exact (proj1 (proj2 (proj2 (proj2 (resolveSha_cases pr_renv))))
             "pull_request" "/github/workflow/event.json" eq_refl (or_introl eq_refl) eq_refl
             ltac:(discriminate)).
  - exact (proj1 (proj2 (proj2 (proj2 (resolveSha_cases pr_empty_renv))))
             "pull_request" "/github/workflow/event.json" eq_refl (or_introl eq_refl) eq_refl
             ltac:(discriminate)).
Defined.

Lemma codes_app (s t : string) : codes (s ++ t) = (codes s ++ codes t)%list.
Proof.
  unfold codes. rewrite <- map_app. f_equal.
  induction s as [|c s IH]; simpl; [reflexivity | rewrite IH; reflexivity].
Qed.

Lemma skip_js_ws_app (ws l : list Z) :
  Forall (fun c => is_js_ws c = true) ws -> skip_js_ws (ws ++ l) = skip_js_ws l.
Proof.
  induction 1 as [|c ws Hc _ IH]; simpl; [reflexivity|]. rewrite Hc. exact IH.
Qed.

Lemma digit_cases (c : Z) :
  is_digit c = true ->
  c = 48 \/ c = 49 \/ c = 50 \/ c = 51 \/ c = 52 \/ c = 53 \/ c = 54 \/ c = 55 \/ c = 56 \/ c = 57.
Proof.
  unfold is_digit. rewrite andb_true_iff, !Z.leb_le. lia.
Qed.

Lemma take_digits_app (ds r : list Z) :
  Forall (fun c => is_digit c = true) ds ->
  match r with c :: _ => is_digit c = false | [] => True end ->
  take_digits (ds ++ r) = (ds, r).
Proof.
  intros Hds Hr. induction Hds as [|c ds Hc _ IH]; simpl.
  - destruct r as [|c r]; [reflexivity|]. simpl. rewrite Hr. reflexivity.
  - rewrite Hc, IH. reflexivity.
Qed.

Lemma Qred_inject_Z (n : Z) : Qred (inject_Z n) = inject_Z n.
Proof.
  unfold Qred, inject_Z.
  pose proof (Z.ggcd_gcd n 1) as Hg. pose proof (Z.ggcd_correct_divisors n 1) as Hd.
  destruct (Z.ggcd n 1) as [g [aa bb]]. cbn [fst snd] in *.
  rewrite Z.gcd_1_r in Hg. subst g. destruct Hd as [H1 H2].
  replace aa with n by lia. replace bb with 1 by lia. reflexivity.
Qed.

Lemma round_half_even_1 (x : Z) : round_half_even x 1 = x.
Proof.
  unfold round_half_even. cbv zeta. rewrite Z.div_1_r, Z.mod_1_r. reflexivity.
Qed.

(** Integers of magnitude below [2^53] are numbers exactly. *)
Lemma round_binary64_exact (n : Z) :
  Z.abs n < 2 ^ 53 -> round_binary64 (inject_Z n) = DFinite (inject_Z n).
Proof.
  assert (Hpos : forall p, Zpos p < 2 ^ 53 -> round_pos (Zpos p) 1 = DFinite (inject_Z (Zpos p))).
  { intros p Hp. unfold round_pos.
    assert (Hge := Z.log2_nonneg (Zpos p)).
    assert (Hl : log2_floor (Zpos p) 1 = Z.log2 (Zpos p)).
    { unfold log2_floor. rewrite Z.log2_1, Z.sub_0_r.
      rewrite (proj2 (Z.leb_le 0 _) Hge), Z.mul_1_l.
      destruct (Z.log2_spec (Zpos p) ltac:(lia)) as [H1 _].
      rewrite (proj2 (Z.leb_le _ _) H1). reflexivity. }
    rewrite Hl.
    assert (Hlt : Z.log2 (Zpos p) < 53) by (exact (proj1 (Z.log2_lt_pow2 (Zpos p) 53 ltac:(lia)) Hp)).
    rewrite Z.max_l by lia.
    destruct (Z.eq_dec (Z.log2 (Zpos p)) 52) as [Hk | Hk].
    - rewrite Hk. replace (52 - 52) with 0 by lia.
      rewrite Z.pow_0_r, Z.mul_1_r, Z.mul_1_r, round_half_even_1.
      assert (H1024 : 2 ^ 53 <= 2 ^ 1024) by (apply Z.pow_le_mono_r; lia).
      rewrite (proj2 (Z.leb_gt (2 ^ 1024) (Zpos p))) by lia. reflexivity.
    - rewrite (proj2 (Z.leb_gt 0 _)) by lia. rewrite round_half_even_1.
      f_equal. rewrite <- (Qred_inject_Z (Zpos p)). apply Qred_complete.
      unfold Qeq, inject_Z. cbn [Qnum Qden].
      rewrite Z2Pos.id by (apply Z.pow_pos_nonneg; lia). ring. }
  intros Hn. destruct n as [|p|p]; [reflexivity| |].
  - unfold round_binary64. cbn [inject_Z Qnum Qden]. apply Hpos. exact Hn.
  - unfold round_binary64. cbn [inject_Z Qnum Qden]. rewrite Hpos by exact Hn. reflexivity.
Qed.

Lemma digits_value_nonneg (ds : list Z) :
  Forall (fun c => is_digit c = true) ds -> 0 <= digits_value ds.
Proof.
  unfold digits_value.
  assert (H : forall acc, 0 <= acc -> Forall (fun c => is_digit c = true) ds ->
              0 <= fold_left (fun acc d => acc * 10 + (d - 48)) ds acc).
  { induction ds as [|c ds IH]; simpl; intros acc Hacc Hds; [exact Hacc|].
    inversion Hds as [|c' ds' Hc Hr]; subst.
    apply IH; [|exact Hr].
    unfold is_digit in Hc. rewrite andb_true_iff, !Z.leb_le in Hc. lia. }
  intros Hds. apply H; [lia | exact Hds].
Qed.

(** X17: [Number.parseInt(input, 10)], as used for [timeout-seconds],
    skips leading white space, takes an optional sign and then reads the
    longest run of decimal digits, ignoring whatever follows; the result is
    that signed integer rounded to a number, which is the integer itself
    below [2^53]: e.g. an input [30s] or [30.9] gives 30 and [-5] gives -5
    (then rejected by [run]). *)
Theorem parseInt10_leading (ws sg d rest : string) :
  Forall (fun c => is_js_ws c = true) (codes ws) ->
  sg = EmptyString \/ sg = "+" \/ sg = "-" ->
  codes d <> [] -> Forall (fun c => is_digit c = true) (codes d) ->
  match codes rest with c :: _ => is_digit c = false | [] => True end ->
  parseInt10 (ws ++ sg ++ d ++ rest) =
  round_binary64 (inject_Z ((if String.eqb sg "-" then -1 else 1) * digits_value (codes d))) /\
  (digits_value (codes d) < 2 ^ 53 ->
   parseInt10 (ws ++ sg ++ d ++ rest) =
   DFinite (inject_Z ((if String.eqb sg "-" then -1 else 1) * digits_value (codes d)))).
Proof.
  intros Hws Hsg Hne Hd Hr.
  assert (Hp : parseInt10 (ws ++ sg ++ d ++ rest) =
    round_binary64 (inject_Z ((if String.eqb sg "-" then -1 else 1) * digits_value (codes d)))).
  { unfold parseInt10.
    rewrite !codes_app, skip_js_ws_app by exact Hws.
    destruct (codes d) as [|c ds] eqn:Hcd; [contradiction|].
    inversion Hd as [|c' ds' Hc Hds]; subst c' ds'.
    pose proof (take_digits_app ds (codes rest) Hds Hr) as Ht.
    destruct Hsg as [-> | [-> | ->]]; cbn [codes list_ascii_of_string map app String.eqb];
      destruct (digit_cases c Hc) as [-> | [-> | [-> | [-> | [-> | [-> | [-> | [-> | [-> | ->]]]]]]]]];
      simpl; rewrite Ht; reflexivity. }
  split; [exact Hp|]. intros Hlt. rewrite Hp. apply round_binary64_exact.
  assert (Hnn := digits_value_nonneg _ Hd).
  destruct (String.eqb sg "-"); lia.
Qed.

Lemma parseInt10_leading_witness :
  parseInt10 ("  " ++ EmptyString ++ "30" ++ "s") = DFinite 30 /\
  parseInt10 (EmptyString ++ EmptyString ++ "9007199254740993" ++ EmptyString) =
  DFinite 9007199254740992.
Proof.
  split.
  - rewrite (proj2 (parseInt10_leading "  " EmptyString "30" "s"
                      ltac:(vm_compute; repeat constructor) (or_introl eq_refl)
                      ltac:(discriminate) ltac:(vm_compute; repeat constructor) eq_refl))
      by reflexivity.
    reflexivity.
  - rewrite (proj1 (parseInt10_leading EmptyString EmptyString "9007199254740993" EmptyString
                      ltac:(vm_compute; repeat constructor) (or_introl eq_refl)
                      ltac:(discriminate) ltac:(vm_compute; repeat constructor) I)).
    vm_compute. reflexivity.
Defined.

End AwaitRunProofs.
